(** * Ludwig training orchestration and numeric helpers

    A shallow embedding of [ludwig/train.py] (run-directory allocation,
    resume-or-fresh decision, best-epoch selection and its report) and of
    [ludwig/utils/math_utils.py] (path similarity, integer-width choice,
    byte-size formatting).

    Conventions of the embedding:
    - Python exceptions are the constructors of [exn]; a computation that
      may raise has type [result A].
    - Python [int] is [Z] (or [nat] for counters and indices that are never
      negative); the quotient of two ints by [/] is a rational [Q].
    - A metric value is a [pyfloat]: a finite number (a rational, into
      which finite floats embed exactly and with the same comparisons),
      an infinity, or not-a-number, which compares false with
      everything.
    - [dict] with string keys is [gmap string _]; [list] is [list].
    - The file system is the finite set of path strings on which
      [os.path.isdir] answers true and the finite set of those that name
      a regular file; two spellings of one directory are two members, and
      a state lists every spelling the code asks about. *)

From Stdlib Require Import Ascii QArith Lia Lqa.
From stdpp Require Import base decidable option list gmap strings pretty.

(** ** Floats *)

(** A Python float as far as comparison sees it. *)
Inductive pyfloat : Type :=
  | Finite (q : Q)
  | PosInf
  | NegInf
  | NaN.

(** ** Exceptions and the error monad *)

Inductive exn : Set :=
  | KeyError
  | IndexError
  | ValueError
  | ZeroDivisionError
  | FileNotFoundError
  | FileExistsError.

#[global] Instance exn_eq_dec : EqDecision exn.
Proof. solve_decision. Defined.

(** [issubclass(e, LookupError)]: the built-in hierarchy puts exactly
    [KeyError] and [IndexError] below [LookupError]. *)
Definition is_LookupError (e : exn) : bool :=
  match e with
  | KeyError | IndexError => true
  | _ => false
  end.

(** [issubclass(e, IndexError)]. *)
Definition is_IndexError (e : exn) : bool :=
  match e with
  | IndexError => true
  | _ => false
  end.

Inductive result (A : Type) : Type :=
  | Ok (a : A)
  | Raise (e : exn).
Arguments Ok {A} a.
Arguments Raise {A} e.

#[global] Instance result_ret : MRet result := @Ok.
#[global] Instance result_bind : MBind result := λ A B k m,
  match m with
  | Ok a => k a
  | Raise e => Raise e
  end.

(** ** Python built-ins used by the source *)

Module Py.

(** [d[k]] on a dict. *)
Definition getitem {V : Type} (d : gmap string V) (k : string) : result V :=
  match d !! k with
  | Some v => Ok v
  | None => Raise KeyError
  end.

(** [l[i]] on a list, for an index that is not negative. *)
Definition index {A : Type} (l : list A) (i : nat) : result A :=
  match l !! i with
  | Some a => Ok a
  | None => Raise IndexError
  end.

(** [l[-k]] on a list, for [k >= 1]. *)
Definition index_from_end {A : Type} (l : list A) (k : nat) : result A :=
  if decide (1 ≤ k ≤ length l)%nat then index l (length l - k)
  else Raise IndexError.

(** [l[i]] on a list or tuple, for an int index of either sign. *)
Definition index_int {A : Type} (l : list A) (i : Z) : result A :=
  if decide (0 ≤ i)%Z then index l (Z.to_nat i)
  else index_from_end l (Z.to_nat (- i)).

(** A [for] loop over a list whose body updates one variable and may
    raise. *)
Fixpoint for_each {B S : Type} (body : S → B → result S)
    (l : list B) (s : S) : result S :=
  match l with
  | [] => Ok s
  | x :: l' => s' ← body s x; for_each body l' s'
  end.

(** [enumerate(l, start)], as the list of the pairs it yields. *)
Fixpoint enumerate_from {A : Type} (start : nat) (l : list A) : list (nat * A) :=
  match l with
  | [] => []
  | x :: l' => (start, x) :: enumerate_from (S start) l'
  end.

(** [enumerate(l)]: counting starts at zero. *)
Definition enumerate {A : Type} (l : list A) : list (nat * A) :=
  enumerate_from 0 l.

(** [x > y] on finite numbers. *)
Definition gt (x y : Q) : bool :=
  match (x ?= y)%Q with
  | Gt => true
  | _ => false
  end.

(** [x > y] on floats: false whenever one side is not-a-number. *)
Definition float_gt (x y : pyfloat) : bool :=
  match x, y with
  | NaN, _ | _, NaN => false
  | Finite a, Finite b => gt a b
  | PosInf, PosInf => false
  | PosInf, _ => true
  | _, PosInf => false
  | NegInf, _ => false
  | Finite _, NegInf => true
  end.

(** The scan of [max(iterable, key=key)]: the first item is taken, a
    later item replaces the current one only when its key compares
    greater with [>]. *)
Fixpoint max_scan {A : Type} (key : A → pyfloat) (maxitem : A)
    (rest : list A) : A :=
  match rest with
  | [] => maxitem
  | item :: rest' =>
      if float_gt (key item) (key maxitem)
      then max_scan key item rest'
      else max_scan key maxitem rest'
  end.

(** [max(iterable, key=key)] without a default: an empty iterable
    raises [ValueError]. *)
Definition max_by {A : Type} (key : A → pyfloat) (iterable : list A)
    : result A :=
  match iterable with
  | [] => Raise ValueError
  | item :: rest => Ok (max_scan key item rest)
  end.

(** [a / b] on ints (true division). *)
Definition truediv (a b : Z) : result Q :=
  if decide (b = 0%Z) then Raise ZeroDivisionError
  else Ok (inject_Z a / inject_Z b)%Q.

(** [s.startswith('/')]. *)
Definition startswith_sep (s : string) : bool :=
  match s with
  | String "/"%char _ => true
  | _ => false
  end.

(** [s.endswith('/')]. *)
Fixpoint endswith_sep (s : string) : bool :=
  match s with
  | EmptyString => false
  | String c EmptyString => bool_decide (c = "/"%char)
  | String _ s' => endswith_sep s'
  end.

(** Truth value of a string: the empty string is false. *)
Definition truthy (s : string) : bool :=
  match s with
  | EmptyString => false
  | String _ _ => true
  end.

(** The decimal numeral of a replacement field such as [{0}]. *)
Fixpoint parse_index (acc : nat) (s : string) : option nat :=
  match s with
  | EmptyString => Some acc
  | String c s' =>
      d ← Ascii.is_nat c; parse_index (10 * acc + d) s'
  end.

(** The value a replacement field stands for: [{}] takes the next
    positional argument, [{n}] the [n]-th one, [{name}] the keyword
    argument of that name.  The result carries the next automatic
    index. *)
Definition field_value (name : string) (auto : nat)
    (args : list string) (kwargs : list (string * string))
    : result (string * nat) :=
  match name with
  | EmptyString => v ← index args auto; Ok (v, S auto)
  | String c _ =>
      match Ascii.is_nat c, parse_index 0 name with
      | Some _, Some n => v ← index args n; Ok (v, auto)
      | Some _, None => Raise ValueError
      | None, _ =>
          match list_find (λ kv, fst kv = name) kwargs with
          | Some (_, kv) => Ok (snd kv, auto)
          | None => Raise KeyError
          end
      end
  end.

(** [template.format] with positional and keyword arguments, for
    templates made of literal text, the escapes [{{] and [}}], and
    replacement fields without conversion or format specification; the
    arguments are given by their [str].  Arguments that no field refers
    to are ignored.  [field] is the name of the replacement field being
    read, if any. *)
Fixpoint format_scan (template : string) (field : option string) (auto : nat)
    (args : list string) (kwargs : list (string * string)) : result string :=
  match template, field with
  | EmptyString, None => Ok ""
  | EmptyString, Some _ => Raise ValueError
  | String "{"%char (String "{"%char rest), None =>
      s ← format_scan rest None auto args kwargs; Ok (String "{"%char s)
  | String "}"%char (String "}"%char rest), None =>
      s ← format_scan rest None auto args kwargs; Ok (String "}"%char s)
  | String "{"%char rest, None => format_scan rest (Some "") auto args kwargs
  | String "}"%char _, None => Raise ValueError
  | String c rest, None =>
      s ← format_scan rest None auto args kwargs; Ok (String c s)
  | String "{"%char _, Some _ => Raise ValueError
  | String "}"%char rest, Some name =>
      '(v, auto') ← field_value name auto args kwargs;
      s ← format_scan rest None auto' args kwargs;
      Ok (v +:+ s)
  | String c rest, Some name =>
      format_scan rest (Some (name +:+ String c "")) auto args kwargs
  end.

Definition format (template : string)
    (args : list string) (kwargs : list (string * string)) : result string :=
  format_scan template None 0 args kwargs.

End Py.

(** ** Training statistics and best-epoch selection ([full_train]) *)

(** One of the three series: field name, then measure name, then the
    per-epoch values. *)
Abbreviation statistics := (gmap string (gmap string (list pyfloat))).

Record best_epoch : Type := BestEpoch {
  epoch_max_vali_measure : nat;
  max_vali_measure : pyfloat;
  max_vali_measure_epoch_test_measure : pyfloat
}.

(** The block of [full_train] that follows the training call: it reads the
    validation series of the configured field and measure, takes the
    pair of [enumerate] with the greatest value, and indexes the test
    series with the epoch of that pair. *)
Definition select_best_epoch
    (train_valisest_stats train_testset_stats : statistics)
    (validation_field validation_measure : string) : result best_epoch :=
  validation_field_result ← Py.getitem train_valisest_stats validation_field ;
  series ← Py.getitem validation_field_result validation_measure ;
  best ← Py.max_by snd (Py.enumerate series) ;
  test_field_result ← Py.getitem train_testset_stats validation_field ;
  test_series ← Py.getitem test_field_result validation_measure ;
  test_measure ← Py.index test_series (fst best) ;
  Ok (BestEpoch (fst best) (snd best) test_measure).

(** The run of the specification's example: field "y", measure "accuracy". *)
Definition example_stats (series : list pyfloat) : statistics :=
  {[ "y" := {[ "accuracy" := series ]} ]}.

(** The order of the numbers among the floats, not-a-number being
    unrelated to everything, itself included. *)
Definition float_le (x y : pyfloat) : Prop :=
  match x, y with
  | NaN, _ | _, NaN => False
  | NegInf, _ => True
  | _, PosInf => True
  | Finite a, Finite b => (a <= b)%Q
  | _, _ => False
  end.

Definition float_lt (x y : pyfloat) : Prop :=
  match x, y with
  | NaN, _ | _, NaN => False
  | NegInf, NegInf => False
  | NegInf, _ => True
  | PosInf, _ => False
  | Finite _, PosInf => True
  | Finite a, Finite b => (a < b)%Q
  | Finite _, NegInf => False
  end.

(** The values of the specification's example, and a series that starts
    with the not-a-number of a diverged epoch. *)
Definition example_validation : list pyfloat :=
  [Finite (5#10); Finite (9#10); Finite (7#10)].

Definition example_test : list pyfloat :=
  [Finite (4#10); Finite (8#10); Finite (6#10)].

Definition example_diverged : list pyfloat :=
  [NaN; Finite (9#10); Finite (7#10)].

(** ** The file system seen by [os.path] and [os.mkdir] *)

Record filesystem : Type := FileSystem {
  dirs : gset string;
  files : gset string
}.

Module Os.

(** [os.path.isdir(p)]; the empty path names nothing. *)
Definition isdir (fs : filesystem) (p : string) : bool :=
  bool_decide (p ≠ "" ∧ p ∈ dirs fs).

(** [os.path.exists(p)]. *)
Definition path_exists (fs : filesystem) (p : string) : bool :=
  bool_decide (p ≠ "" ∧ (p ∈ dirs fs ∨ p ∈ files fs)).

(** [os.mkdir(p)]: fails on the empty path and on a path that exists.
    The model has no parent relation between paths and knows a
    directory under the spelling it was made with only: where it fails,
    [os.mkdir] fails with the same error, but it also succeeds where
    [os.mkdir] raises for a missing parent.  The properties below
    therefore conclude that a call returns only where no [mkdir] is
    involved; where one is, its success is a hypothesis. *)
Definition mkdir (fs : filesystem) (p : string) : result filesystem :=
  if decide (p = "") then Raise FileNotFoundError
  else if path_exists fs p then Raise FileExistsError
  else Ok {| dirs := {[ p ]} ∪ dirs fs; files := files fs |}.

(** [os.path.join(a, b)] of [posixpath]. *)
Definition path_join (a b : string) : string :=
  if Py.startswith_sep b then b
  else if negb (Py.truthy a) || Py.endswith_sep a then a +:+ b
  else a +:+ "/" +:+ b.

End Os.

(** ** Run directories ([get_experiment_dir_name], [get_file_names]) *)

(** ['{base}_{suffix}'.format(base=base_dir_name, suffix=suffix)]. *)
Definition suffixed (base_dir_name : string) (suffix : nat) : string :=
  base_dir_name +:+ "_" +:+ pretty suffix.

(** The search for an unused suffix.  [fuel] bounds the number of
    [os.path.isdir] tests; [None] means the bound was reached. *)
Fixpoint unused_suffix (fs : filesystem) (base_dir_name : string)
    (fuel suffix : nat) : option nat :=
  match fuel with
  | O => None
  | S fuel' =>
      if Os.isdir fs (suffixed base_dir_name suffix)
      then unused_suffix fs base_dir_name fuel' (S suffix)
      else Some suffix
  end.

(** [experiment_name + ('_' if model_name else '') + model_name]. *)
Definition run_name (experiment_name model_name : string) : string :=
  experiment_name +:+ (if Py.truthy model_name then "_" else "") +:+ model_name.

(** [get_experiment_dir_name]: the results directory is made if it is
    not a directory, then the first unused suffix is looked for.  The
    result is [None] when the search does not end within [fuel] tests. *)
Definition get_experiment_dir_name (fuel : nat) (fs : filesystem)
    (output_directory experiment_name model_name : string)
    : option (result (string * filesystem)) :=
  let results_dir := output_directory in
  match (if Os.isdir fs results_dir then Ok fs else Os.mkdir fs results_dir) with
  | Raise e => Some (Raise e)
  | Ok fs1 =>
      let base_dir_name :=
        Os.path_join results_dir (run_name experiment_name model_name) in
      suffix ← unused_suffix fs1 base_dir_name fuel 0;
      Some (Ok (suffixed base_dir_name suffix, fs1))
  end.

Record file_names : Type := FileNames {
  description_fn : string;
  training_stats_fn : string;
  model_dir : string
}.

(** [get_file_names]: the run directory is made unless something exists
    at its path; the three file names are joined to it. *)
Definition get_file_names (fs : filesystem) (experiment_dir_name : string)
    : result (file_names * filesystem) :=
  fs1 ← (if Os.path_exists fs experiment_dir_name then Ok fs
         else Os.mkdir fs experiment_dir_name);
  Ok (FileNames (Os.path_join experiment_dir_name "description.json")
                (Os.path_join experiment_dir_name "training_statistics.json")
                (Os.path_join experiment_dir_name "model"),
      fs1).

(** The results directory is one already or can be made. *)
Definition usable_results_dir (fs : filesystem) (out : string) : Prop :=
  Os.isdir fs out = true ∨ (out ≠ "" ∧ Os.path_exists fs out = false).



(** A regular file where the results directory should be. *)
Definition example_fs_file : filesystem :=
  {| dirs := ∅; files := {[ "results" ]} |}.

(** A results directory that holds the runs 0 and 1 of the default
    experiment and model names. *)
Definition example_fs : filesystem :=
  {| dirs := {[ "results"; "results/experiment_run_0";
                "results/experiment_run_1" ]};
     files := ∅ |}.

(** ** Resume or fresh start ([full_train], directory set-up) *)

Definition resume_missing_message : string :=
  "Model resume path does not exists, starting training from scratch".

(** What the directory set-up of [full_train] hands on: the run
    directory, the file names in it, the [save_path] and [resume]
    arguments of the call of [train], the messages logged and the file
    system left behind. *)
Record run_setup : Type := RunSetup {
  experiment_dir_name : string;
  names : file_names;
  train_save_path : string;
  train_resume : bool;
  logged : list string;
  fs_after : filesystem
}.

(** The first block of [full_train].  [model_resume_path] is [None] for
    Python's [None]; after the test of [os.path.exists] the variables
    [experiment_dir_name] and [model_resume_path] are either both the
    given path or both [None], so one option stands for the two. *)
Definition full_train_setup (fuel : nat) (fs : filesystem)
    (model_resume_path : option string)
    (output_directory experiment_name model_name : string)
    : option (result run_setup) :=
  let '(model_resume_path, log) :=
    match model_resume_path with
    | Some p =>
        if Os.path_exists fs p then (Some p, [])
        else (None, [resume_missing_message])
    | None => (None, [])
    end in
  allocated ←
    match model_resume_path with
    | None =>
        get_experiment_dir_name fuel fs
          output_directory experiment_name model_name
    | Some p => Some (Ok (p, fs))
    end;
  Some ('(experiment_dir_name, fs1) ← allocated;
        '(fns, fs2) ← get_file_names fs1 experiment_dir_name;
        Ok (RunSetup experiment_dir_name fns (model_dir fns)
                     (bool_decide (is_Some model_resume_path)) log fs2)).

(** The set-up of a fresh run in [example_fs], and of a second one after
    it. *)
Definition example_run_names (dir : string) : file_names :=
  FileNames (dir +:+ "/description.json")
            (dir +:+ "/training_statistics.json")
            (dir +:+ "/model").

Definition example_run : run_setup :=
  RunSetup "results/experiment_run_2"
           (example_run_names "results/experiment_run_2")
           "results/experiment_run_2/model" false []
           {| dirs := {[ "results/experiment_run_2" ]} ∪ dirs example_fs;
              files := ∅ |}.

Definition example_run_again : run_setup :=
  RunSetup "results/experiment_run_3"
           (example_run_names "results/experiment_run_3")
           "results/experiment_run_3/model" false []
           {| dirs := {[ "results/experiment_run_3" ]}
                      ∪ dirs (fs_after example_run);
              files := ∅ |}.

(** The same set-up with other logged messages. *)
Definition with_logged (log : list string) (r : run_setup) : run_setup :=
  RunSetup (experiment_dir_name r) (names r) (train_save_path r)
           (train_resume r) log (fs_after r).

(** ** The report of the best epoch ([full_train]) *)

(** The argument of the first [logging.info] after the selection:
    ['Best validation model epoch:'.format(epoch_max_vali_measure + 1)]. *)
Definition best_epoch_message (epoch_max_vali_measure : nat) : result string :=
  Py.format "Best validation model epoch:"
            [pretty (epoch_max_vali_measure + 1)] [].

(** ** Path similarity ([jaccard]) *)

Section Jaccard.
Context {A : Type} `{EqDecision A}.

(** The loop [for i in range(min(size_set_1, size_set_2))] with its
    [break]: [todo] iterations are left, [i] is the loop variable. *)
Fixpoint intersection_loop (path1 path2 : list A)
    (todo i intersection : nat) : result nat :=
  match todo with
  | O => Ok intersection
  | S todo' =>
      last_p1 ← Py.index_from_end path1 (i + 1);
      last_p2 ← Py.index_from_end path2 (i + 1);
      if decide (last_p1 = last_p2)
      then intersection_loop path1 path2 todo' (S i) (intersection + 1)
      else Ok intersection
  end.

(** The body of the two nested loops, as an update of
    [max_jaccard_score]. *)
Definition jaccard_pair (max_jaccard_score : Q) (path1 path2 : list A)
    : result Q :=
  let size_set_1 := length path1 in
  let size_set_2 := length path2 in
  intersection ←
    intersection_loop path1 path2 (Nat.min size_set_1 size_set_2) 0 0;
  jaccard_score ←
    Py.truediv (Z.of_nat intersection)
               (Z.of_nat size_set_1 + Z.of_nat size_set_2
                - Z.of_nat intersection);
  Ok (if Py.gt jaccard_score max_jaccard_score
      then jaccard_score else max_jaccard_score).

(** [jaccard]: the two nested loops, started with a score of 0. *)
Definition jaccard (sorted_list_1 sorted_list_2 : list (list A)) : result Q :=
  Py.for_each
    (λ max_jaccard_score path1,
       Py.for_each (λ max_jaccard_score path2,
                      jaccard_pair max_jaccard_score path1 path2)
                   sorted_list_2 max_jaccard_score)
    sorted_list_1 0%Q.

(** The overlap in the words of the specification: both paths are
    walked from their ends inward while the elements are equal. *)
Fixpoint common_prefix_length (l1 l2 : list A) : nat :=
  match l1, l2 with
  | x :: l1', y :: l2' =>
      if decide (x = y) then S (common_prefix_length l1' l2') else O
  | _, _ => O
  end.

Definition suffix_run (path1 path2 : list A) : nat :=
  common_prefix_length (reverse path1) (reverse path2).

(** The score of a pair in the words of the specification: the run
    length over [len(path1) + len(path2) - run]. *)
Definition spec_pair_score (path1 path2 : list A) : Q :=
  (inject_Z (Z.of_nat (suffix_run path1 path2))
   / inject_Z (Z.of_nat (length path1) + Z.of_nat (length path2)
               - Z.of_nat (suffix_run path1 path2)))%Q.

(** [r] is the greatest pair score, or zero when there is no pair. *)
Definition is_max_pair_score (l1 l2 : list (list A)) (r : Q) : Prop :=
  (∀ p1 p2, p1 ∈ l1 → p2 ∈ l2 → (spec_pair_score p1 p2 <= r)%Q)
  ∧ ((∃ p1 p2, p1 ∈ l1 ∧ p2 ∈ l2 ∧ (r == spec_pair_score p1 p2)%Q)
     ∨ ((l1 = [] ∨ l2 = []) ∧ r = 0%Q)).

End Jaccard.

(** ** Integer width ([int_type]) *)

(** The four numpy types [int_type] chooses from. *)
Inductive np_int : Set := int8 | int16 | int32 | int64.

(** The width of a type, in bits. *)
Definition bits (t : np_int) : Z :=
  match t with
  | int8 => 8
  | int16 => 16
  | int32 => 32
  | int64 => 64
  end.

(** [int_type]: the chain of comparisons with the three thresholds. *)
Definition int_type (num_distinct : Z) : np_int :=
  if (num_distinct <? 128)%Z then int8
  else if (num_distinct <? 32768)%Z then int16
  else if (num_distinct <? 2147483648)%Z then int32
  else int64.

(** ** Byte sizes ([convert_size]) *)

Section ConvertSize.
(** The floating-point steps are kept abstract:
    [floor_log_1024 b] is [int(math.floor(math.log(b, 1024)))] and
    [scaled b i] is the [str] of [round(b / math.pow(1024, i), 2)]. *)
Variable floor_log_1024 : Z → result Z.
Variable scaled : Z → Z → result string.

Definition size_name : list string :=
  ["B"; "KB"; "MB"; "GB"; "TB"; "PB"; "EB"; "ZB"; "YB"].

(** [convert_size]: zero is answered at once; otherwise the unit index,
    the scaled number and the unit name are computed in this order and
    put into the template ['{} {}']. *)
Definition convert_size (size_bytes : Z) : result string :=
  if decide (size_bytes = 0%Z) then Ok "0B"
  else
    i ← floor_log_1024 size_bytes;
    s ← scaled size_bytes i;
    unit_name ← Py.index_int size_name i;
    Py.format "{} {}" [s; unit_name] [].

End ConvertSize.

(** Two outcomes of [jaccard] that agree: the same exception, or scores
    that are equal as numbers. *)
Definition same_score (a b : result Q) : Prop :=
  match a, b with
  | Ok x, Ok y => (x == y)%Q
  | Raise e1, Raise e2 => e1 = e2
  | _, _ => False
  end.

(** The values of a signed integer type of the given width. *)
Definition in_signed_range (t : np_int) (n : Z) : Prop :=
  (- 2 ^ (bits t - 1) ≤ n < 2 ^ (bits t - 1))%Z.

(** ** Preprocessing from metadata ([update_model_definition_with_metadata]) *)

Section MetadataUpdate.
(** Values of the feature dictionaries; the ones used as keys of the
    metadata are hashable. *)
Context {V : Type} `{Countable V}.

(** [d[k]] on a dict whose keys are values. *)
Definition getitem_value {W : Type} (d : gmap V W) (k : V) : result W :=
  match d !! k with
  | Some w => Ok w
  | None => Raise KeyError
  end.

(** The body of the last loop of [update_model_definition_with_metadata]:
    a feature that has the key ['preprocessing'] gets, under that key,
    [metadata[feature['name']]['preprocessing']].  The feature returned
    stands for the dictionary after the assignment. *)
Definition update_feature_preprocessing (metadata : gmap V (gmap string V))
    (feature : gmap string V) : result (gmap string V) :=
  if decide (is_Some (feature !! "preprocessing")) then
    name ← Py.getitem feature "name";
    entry ← getitem_value metadata name;
    preprocessing ← Py.getitem entry "preprocessing";
    Ok (<["preprocessing" := preprocessing]> feature)
  else Ok feature.

(** The loop over a list of features, in order; the list returned holds
    the features after their assignments. *)
Fixpoint update_features_preprocessing (metadata : gmap V (gmap string V))
    (features : list (gmap string V)) : result (list (gmap string V)) :=
  match features with
  | [] => Ok []
  | feature :: features' =>
      feature' ← update_feature_preprocessing metadata feature;
      rest ← update_features_preprocessing metadata features';
      Ok (feature' :: rest)
  end.

(** The last loop of [update_model_definition_with_metadata]: it runs
    over [input_features + output_features]; the two lists returned are
    the input and the output features afterwards. *)
Definition update_preprocessing_with_metadata
    (metadata : gmap V (gmap string V))
    (input_features output_features : list (gmap string V))
    : result (list (gmap string V) * list (gmap string V)) :=
  updated ← update_features_preprocessing metadata
              (input_features ++ output_features);
  Ok (take (length input_features) updated,
      drop (length input_features) updated).

(** The feature needs nothing from the metadata, or the metadata has a
    preprocessing entry under its name. *)
Definition preprocessing_resolvable (metadata : gmap V (gmap string V))
    (feature : gmap string V) : Prop :=
  feature !! "preprocessing" = None
  ∨ ∃ name entry preprocessing,
      feature !! "name" = Some name
      ∧ metadata !! name = Some entry
      ∧ entry !! "preprocessing" = Some preprocessing.

End MetadataUpdate.

(** A text feature with preprocessing options, one without, one whose
    name the metadata does not know, and metadata for the first. *)
Definition example_feature : gmap string string :=
  {[ "name" := "utterance"; "type" := "text"; "preprocessing" := "default" ]}.

Definition example_plain_feature : gmap string string :=
  {[ "name" := "label"; "type" := "category" ]}.

Definition example_unknown_feature : gmap string string :=
  {[ "name" := "missing"; "preprocessing" := "default" ]}.

Definition example_metadata : gmap string (gmap string string) :=
  {[ "utterance" := {[ "preprocessing" := "lowercase"; "vocab_size" := "100" ]} ]}.

(** * Properties *)

(** ** Best-epoch selection *)

Lemma gt_true (x y : Q) : Py.gt x y = true ↔ (y < x)%Q.
Proof.
  unfold Py.gt. rewrite (Qgt_alt x y).
  destruct (x ?= y)%Q; split; congruence.
Qed.

Lemma gt_false (x y : Q) : Py.gt x y = false ↔ (x <= y)%Q.
Proof.
  split.
  - intros Hgt. apply Qnot_lt_le. intros Hlt.
    apply gt_true in Hlt. congruence.
  - intros Hle. destruct (Py.gt x y) eqn:Hgt; [|done].
    apply gt_true in Hgt. exfalso. by apply (Qlt_not_le y x).
Qed.

(** The comparison of floats against the order of the numbers. *)
Lemma float_gt_true (x y : pyfloat) : Py.float_gt x y = true ↔ float_lt y x.
Proof.
  destruct x as [a| | |], y as [b| | |]; simpl; try tauto; try done.
  apply gt_true.
Qed.

Lemma float_gt_false (x y : pyfloat) :
  x ≠ NaN → y ≠ NaN → Py.float_gt x y = false ↔ float_le x y.
Proof.
  intros Hx Hy.
  destruct x as [a| | |], y as [b| | |]; simpl; try tauto; try done.
  apply gt_false.
Qed.

Lemma float_le_refl (x : pyfloat) : x ≠ NaN → float_le x x.
Proof. destruct x; simpl; try done. intros _. apply Qle_refl. Qed.

Lemma float_le_not_nan (x y : pyfloat) : float_le x y → x ≠ NaN ∧ y ≠ NaN.
Proof. by destruct x, y. Qed.

Lemma float_lt_not_nan (x y : pyfloat) : float_lt x y → x ≠ NaN ∧ y ≠ NaN.
Proof. by destruct x, y. Qed.

Lemma float_le_trans (x y z : pyfloat) :
  float_le x y → float_le y z → float_le x z.
Proof.
  destruct x, y, z; simpl; try tauto; try done. apply Qle_trans.
Qed.

Lemma float_lt_trans (x y z : pyfloat) :
  float_lt x y → float_lt y z → float_lt x z.
Proof.
  destruct x, y, z; simpl; try tauto; try done. apply Qlt_trans.
Qed.

Lemma float_lt_le_trans (x y z : pyfloat) :
  float_lt x y → float_le y z → float_lt x z.
Proof.
  destruct x, y, z; simpl; try tauto; try done. apply Qlt_le_trans.
Qed.

Lemma float_le_lt_trans (x y z : pyfloat) :
  float_le x y → float_lt y z → float_lt x z.
Proof.
  destruct x, y, z; simpl; try tauto; try done. apply Qle_lt_trans.
Qed.

Lemma float_lt_le_weak (x y : pyfloat) : float_lt x y → float_le x y.
Proof. destruct x, y; simpl; try tauto; try done. apply Qlt_le_weak. Qed.

Lemma float_lt_not_le (x y : pyfloat) : float_lt x y → ¬ float_le y x.
Proof. destruct x, y; simpl; try tauto; try done. apply Qlt_not_le. Qed.

(** On a series without not-a-number the scan keeps a pair whose value
    bounds everything seen, and moves only to a strictly greater value,
    so the pair it ends on is the first one that carries the greatest
    value. *)
Lemma max_scan_enumerate (rest : list pyfloat) :
  ∀ (start : nat) (cur : nat * pyfloat),
    snd cur ≠ NaN →
    Forall (λ w, w ≠ NaN) rest →
    let r := Py.max_scan snd cur (Py.enumerate_from start rest) in
    float_le (snd cur) (snd r)
    ∧ (∀ j w, rest !! j = Some w → float_le w (snd r))
    ∧ (r = cur
       ∨ ∃ i, fst r = start + i ∧ rest !! i = Some (snd r)
              ∧ float_lt (snd cur) (snd r)
              ∧ ∀ j w, j < i → rest !! j = Some w → float_lt w (snd r)).
Proof.
  induction rest as [|x rest IH]; intros start cur Hcur Hrest; simpl.
  - split; [by apply float_le_refl|]. split; [|by left].
    intros j w Hj. by rewrite lookup_nil in Hj.
  - apply Forall_cons in Hrest as [Hx Hrest].
    destruct (Py.float_gt x (snd cur)) eqn:Hgt.
    + apply float_gt_true in Hgt.
      destruct (IH (S start) (start, x) Hx Hrest) as (Hle & Hall & Hwhere).
      simpl in Hle, Hwhere.
      split; [apply float_lt_le_weak; by eapply float_lt_le_trans|].
      split.
      { intros [|j] w Hj; simpl in Hj; [by simplify_eq|by eapply Hall]. }
      right. destruct Hwhere as [Heq|(i & Hi & Hlook & Hlt & Hbefore)].
      * exists 0. rewrite Heq. simpl.
        repeat split; [lia|done|intros; lia].
      * exists (S i). repeat split; [lia|done|by eapply float_lt_trans|].
        intros [|j] w Hj Hw; simpl in Hw; [by simplify_eq|].
        eapply Hbefore; [|done]. lia.
    + apply float_gt_false in Hgt; [|done|done].
      destruct (IH (S start) cur Hcur Hrest) as (Hle & Hall & Hwhere).
      split; [done|]. split.
      { intros [|j] w Hj; simpl in Hj; [|by eapply Hall].
        simplify_eq. by eapply float_le_trans. }
      destruct Hwhere as [Heq|(i & Hi & Hlook & Hlt & Hbefore)]; [by left|].
      right. exists (S i). repeat split; [lia|done|done|].
      intros [|j] w Hj Hw; simpl in Hw.
      * simplify_eq. by eapply float_le_lt_trans.
      * eapply Hbefore; [|done]. lia.
Qed.

(** [max] over [enumerate] of a non-empty series without not-a-number
    returns the first position of the greatest value, with that value. *)
Lemma max_by_enumerate (series : list pyfloat) :
  series ≠ [] →
  Forall (λ w, w ≠ NaN) series →
  ∃ i v, Py.max_by snd (Py.enumerate series) = Ok (i, v)
         ∧ series !! i = Some v
         ∧ (∀ j w, series !! j = Some w → float_le w v)
         ∧ (∀ j w, j < i → series !! j = Some w → float_lt w v).
Proof.
  destruct series as [|x rest]; [done|]. intros _ Hnan.
  apply Forall_cons in Hnan as [Hx Hrest].
  unfold Py.enumerate. simpl.
  destruct (max_scan_enumerate rest 1 (0, x) Hx Hrest) as (Hcur & Hall & Hwhere).
  set (r := Py.max_scan snd (0, x) (Py.enumerate_from 1 rest)) in *.
  simpl in Hcur. exists (fst r), (snd r).
  split; [by destruct r|].
  destruct Hwhere as [Heq|(i & Hi & Hlook & Hlt & Hbefore)].
  - rewrite Heq. simpl. split; [done|]. split; [|intros; lia].
    intros [|j] w Hj; simpl in Hj.
    + simplify_eq. by apply float_le_refl.
    + rewrite Heq in Hall. by eapply Hall.
  - rewrite Hi. simpl in *. split; [done|]. split.
    + intros [|j] w Hj; simpl in Hj; [by simplify_eq|by eapply Hall].
    + intros [|j] w Hj Hw; simpl in Hw; [by simplify_eq|].
      eapply Hbefore; [|done]. lia.
Qed.

(** Whatever the values are, the scan ends on one of the pairs it was
    given. *)
Lemma max_scan_elem {A : Type} (key : A → pyfloat) (rest : list A) :
  ∀ cur, Py.max_scan key cur rest ∈ cur :: rest.
Proof.
  induction rest as [|x rest IH]; intros cur; simpl; [by left|].
  destruct (Py.float_gt (key x) (key cur)).
  - right. apply IH.
  - specialize (IH cur). apply elem_of_cons in IH as [->|Hin]; [by left|].
    right. by right.
Qed.

Lemma enumerate_from_elem {A : Type} (l : list A) :
  ∀ start i (v : A),
    (i, v) ∈ Py.enumerate_from start l →
    ∃ k, i = start + k ∧ l !! k = Some v.
Proof.
  induction l as [|x l IH]; intros start i v Hin; simpl in Hin.
  - by apply elem_of_nil in Hin.
  - apply elem_of_cons in Hin as [[= -> ->]|Hin].
    + exists 0. split; [lia|done].
    + apply IH in Hin as (k & -> & Hk). exists (S k). split; [lia|done].
Qed.

(** [max] over [enumerate] of a non-empty series returns a position of
    the series with the value there. *)
Lemma max_by_enumerate_lookup (series : list pyfloat) :
  series ≠ [] →
  ∃ i v, Py.max_by snd (Py.enumerate series) = Ok (i, v)
         ∧ series !! i = Some v.
Proof.
  destruct series as [|x rest]; [done|]. intros _.
  unfold Py.enumerate. simpl.
  pose proof (max_scan_elem snd (Py.enumerate_from 1 rest) (0, x)) as Hin.
  destruct (Py.max_scan snd (0, x) (Py.enumerate_from 1 rest)) as [i v].
  exists i, v. split; [done|].
  apply elem_of_cons in Hin as [[= -> ->]|Hin]; [done|].
  apply enumerate_from_elem in Hin as (k & -> & Hk). done.
Qed.

(** C1, as the code has it. For a non-empty validation series of the
    configured field and measure in which no value is not-a-number, the
    selection returns the 0-based index of the greatest value, the
    earliest one when the value occurs several times, and the test
    measure it reports is the entry of the test series at that index (the
    test series has an entry for every epoch of the validation
    series). *)
Theorem select_best_epoch_first_maximum
    (train_valisest_stats train_testset_stats : statistics)
    (validation_field validation_measure : string)
    (vfr tfr : gmap string (list pyfloat))
    (series test_series : list pyfloat) :
  train_valisest_stats !! validation_field = Some vfr →
  vfr !! validation_measure = Some series →
  series ≠ [] →
  Forall (λ w, w ≠ NaN) series →
  train_testset_stats !! validation_field = Some tfr →
  tfr !! validation_measure = Some test_series →
  length series ≤ length test_series →
  ∃ i v t,
    select_best_epoch train_valisest_stats train_testset_stats
                      validation_field validation_measure
    = Ok (BestEpoch i v t)
    ∧ series !! i = Some v
    ∧ (∀ j w, series !! j = Some w → float_le w v)
    ∧ (∀ j w, j < i → series !! j = Some w → float_lt w v)
    ∧ test_series !! i = Some t.
Proof.
  intros Hvf Hvm Hne Hnan Htf Htm Hlen.
  destruct (max_by_enumerate series Hne Hnan)
    as (i & v & Hmax & Hi & Hall & Hfirst).
  assert (is_Some (test_series !! i)) as [t Ht].
  { apply lookup_lt_is_Some. apply lookup_lt_Some in Hi. lia. }
  exists i, v, t. repeat split; try done.
  unfold select_best_epoch, Py.getitem.
  rewrite Hvf. simpl. rewrite Hvm. simpl. rewrite Hmax. simpl.
  rewrite Htf. simpl. rewrite Htm. simpl.
  unfold Py.index. rewrite Ht. done.
Qed.

Lemma select_best_epoch_first_maximum_witness :
  ∃ i v t,
    select_best_epoch (example_stats example_validation)
                      (example_stats example_test) "y" "accuracy"
    = Ok (BestEpoch i v t)
    ∧ example_validation !! i = Some v
    ∧ (∀ j w, example_validation !! j = Some w → float_le w v)
    ∧ (∀ j w, j < i → example_validation !! j = Some w → float_lt w v)
    ∧ example_test !! i = Some t.
Proof.
  apply (select_best_epoch_first_maximum
           (example_stats example_validation)
           (example_stats example_test) "y" "accuracy"
           {[ "accuracy" := example_validation ]}
           {[ "accuracy" := example_test ]}).
  - reflexivity.
  - reflexivity.
  - discriminate.
  - repeat (apply Forall_cons; split; [discriminate|]). apply Forall_nil_2.
  - reflexivity.
  - reflexivity.
  - simpl. lia.
Defined.

(** A series that starts with not-a-number: nothing compares greater
    than it, so epoch 0 is selected although 0.9 at epoch 1 is the
    greatest number of the series; the value returned bounds no number of
    the series. *)
Lemma select_best_epoch_diverged_first_epoch :
  select_best_epoch (example_stats example_diverged)
                    (example_stats example_test) "y" "accuracy"
  = Ok (BestEpoch 0 NaN (Finite (4#10)))
  ∧ ¬ ∃ i v t,
        select_best_epoch (example_stats example_diverged)
                          (example_stats example_test) "y" "accuracy"
        = Ok (BestEpoch i v t)
        ∧ ∀ j w, example_diverged !! j = Some w → w ≠ NaN → float_le w v.
Proof.
  assert (select_best_epoch (example_stats example_diverged)
            (example_stats example_test) "y" "accuracy"
          = Ok (BestEpoch 0 NaN (Finite (4#10)))) as Hrun
    by (vm_compute; reflexivity).
  split; [exact Hrun|].
  intros (i & v & t & Hrun' & Hall).
  rewrite Hrun in Hrun'. injection Hrun' as <- <- <-.
  by apply (Hall 1 (Finite (9#10))).
Qed.

Example select_best_epoch_example :
  select_best_epoch (example_stats example_validation)
                    (example_stats example_test) "y" "accuracy"
  = Ok (BestEpoch 1 (Finite (9#10)) (Finite (8#10))).
Proof. vm_compute. reflexivity. Qed.

Example select_best_epoch_all_equal :
  select_best_epoch
    (example_stats [Finite (5#10); Finite (5#10); Finite (5#10)])
    (example_stats example_test) "y" "accuracy"
  = Ok (BestEpoch 0 (Finite (5#10)) (Finite (4#10))).
Proof. vm_compute. reflexivity. Qed.

Lemma raise_inj {A : Type} (e1 e2 : exn) : @Raise A e1 = Raise e2 → e1 = e2.
Proof. congruence. Qed.

(** C2, as the code has it. The selection raises [KeyError], a
    [LookupError], when the validation field or the validation measure is
    missing from the validation statistics, and also when the validation
    series is not empty and the field or measure is missing from the test
    statistics. On an empty validation series it raises [ValueError],
    which is not an [IndexError] and not a [LookupError]. None of these
    cases returns a result. *)
Theorem select_best_epoch_failures
    (train_valisest_stats train_testset_stats : statistics)
    (validation_field validation_measure : string) :
  let run := select_best_epoch train_valisest_stats train_testset_stats
                               validation_field validation_measure in
  (train_valisest_stats !! validation_field = None →
     run = Raise KeyError ∧ is_LookupError KeyError = true)
  ∧ (∀ vfr, train_valisest_stats !! validation_field = Some vfr →
       vfr !! validation_measure = None →
       run = Raise KeyError ∧ is_LookupError KeyError = true)
  ∧ (∀ vfr, train_valisest_stats !! validation_field = Some vfr →
       vfr !! validation_measure = Some [] →
       run = Raise ValueError
       ∧ is_IndexError ValueError = false
       ∧ is_LookupError ValueError = false)
  ∧ (∀ vfr series, train_valisest_stats !! validation_field = Some vfr →
       vfr !! validation_measure = Some series → series ≠ [] →
       train_testset_stats !! validation_field = None
       ∨ (∃ tfr, train_testset_stats !! validation_field = Some tfr
                 ∧ tfr !! validation_measure = None) →
       run = Raise KeyError).
Proof.
  intros run. subst run. unfold select_best_epoch, Py.getitem.
  split; [|split; [|split]].
  - intros ->. done.
  - intros vfr -> Hm. simpl. rewrite Hm. done.
  - intros vfr -> Hm. simpl. rewrite Hm. done.
  - intros vfr series -> Hm Hne Htest. simpl. rewrite Hm. simpl.
    destruct (max_by_enumerate_lookup series Hne) as (i & v & -> & _). simpl.
    destruct Htest as [->|(tfr & -> & Htm)]; [done|].
    simpl. rewrite Htm. done.
Qed.

Lemma select_best_epoch_failures_witness :
  select_best_epoch ∅ ∅ "y" "accuracy" = Raise KeyError
  ∧ select_best_epoch {[ "y" := ∅ ]} ∅ "y" "accuracy" = Raise KeyError
  ∧ select_best_epoch (example_stats []) (example_stats []) "y" "accuracy"
    = Raise ValueError
  ∧ select_best_epoch (example_stats [Finite (1#2)]) ∅ "y" "accuracy"
    = Raise KeyError.
Proof.
  split; [|split; [|split]].
  - apply (select_best_epoch_failures ∅ ∅ "y" "accuracy"). reflexivity.
  - apply (select_best_epoch_failures {[ "y" := ∅ ]} ∅ "y" "accuracy")
      with (vfr := ∅); reflexivity.
  - apply (select_best_epoch_failures (example_stats []) (example_stats [])
             "y" "accuracy") with (vfr := {[ "accuracy" := [] ]}); reflexivity.
  - apply (select_best_epoch_failures (example_stats [Finite (1#2)]) ∅
             "y" "accuracy") with (vfr := {[ "accuracy" := [Finite (1#2)] ]})
                                  (series := [Finite (1#2)]).
    + reflexivity.
    + reflexivity.
    + discriminate.
    + left. reflexivity.
Defined.

(** On the empty series the selection does not fail with an
    [IndexError]. *)
Lemma select_best_epoch_empty_not_IndexError :
  ¬ ∃ e, select_best_epoch (example_stats []) (example_stats [])
                           "y" "accuracy" = Raise e
         ∧ is_IndexError e = true.
Proof.
  intros (e & Hrun & Hkind).
  assert (e = ValueError) as -> by (symmetry; by apply (raise_inj (A:=best_epoch))).
  discriminate.
Qed.

(** ** Run directories *)

Lemma string_app_cons (c : ascii) (s t : string) :
  String c s +:+ t = String c (s +:+ t).
Proof. reflexivity. Qed.

Lemma string_app_nil_r (s : string) : s +:+ "" = s.
Proof.
  induction s as [|c s IH]; [done|]. by rewrite string_app_cons, IH.
Qed.

Lemma string_app_assoc (s1 s2 s3 : string) :
  (s1 +:+ s2) +:+ s3 = s1 +:+ s2 +:+ s3.
Proof.
  induction s1 as [|c s1 IH]; [done|]. by rewrite !string_app_cons, IH.
Qed.


Lemma string_app_eq_nil (s t : string) : s +:+ t = "" → s = "" ∧ t = "".
Proof. destruct s; [done|]. rewrite string_app_cons. discriminate. Qed.

#[global] Instance suffixed_inj (base : string) : Inj (=) (=) (suffixed base).
Proof.
  intros m n Heq. unfold suffixed in Heq.
  apply (String.app_inj base), (String.app_inj "_") in Heq.
  by apply (inj pretty).
Qed.

Lemma suffixed_ne_nil (base : string) (suffix : nat) : suffixed base suffix ≠ "".
Proof.
  unfold suffixed. intros Heq.
  apply string_app_eq_nil in Heq as [_ Heq]. discriminate.
Qed.

Lemma isdir_true (fs : filesystem) (p : string) :
  Os.isdir fs p = true ↔ p ≠ "" ∧ p ∈ dirs fs.
Proof. unfold Os.isdir. apply bool_decide_eq_true. Qed.

(** Finitely many directories cannot hold the names of all suffixes
    below [n] unless [n] is at most their number. *)
Lemma suffixed_run_bounded (base : string) (n : nat) :
  ∀ D : gset string, (∀ k, k < n → suffixed base k ∈ D) → n ≤ size D.
Proof.
  induction n as [|n IH]; intros D Hin; [lia|].
  assert (suffixed base n ∈ D) as Hn by (apply Hin; lia).
  assert (n ≤ size (D ∖ {[ suffixed base n ]})) as Hle.
  { apply IH. intros k Hk. apply elem_of_difference. split; [apply Hin; lia|].
    rewrite elem_of_singleton. intros Heq%(inj _). lia. }
  rewrite size_difference, size_singleton in Hle by set_solver.
  assert (size D ≠ 0); [|lia].
  intros Hz%size_empty_inv. set_solver.
Qed.

(** With fuel beyond the number of directories the search ends, on the
    least suffix at or after [suffix] whose name is not a directory. *)
Lemma unused_suffix_least (fs : filesystem) (base : string) :
  ∀ fuel suffix,
    (∀ k, k < suffix → Os.isdir fs (suffixed base k) = true) →
    size (dirs fs) < fuel + suffix →
    ∃ m, unused_suffix fs base fuel suffix = Some m
         ∧ suffix ≤ m
         ∧ Os.isdir fs (suffixed base m) = false
         ∧ ∀ k, k < m → Os.isdir fs (suffixed base k) = true.
Proof.
  induction fuel as [|fuel IH]; intros suffix Hbelow Hfuel.
  - exfalso. assert (suffix ≤ size (dirs fs)); [|lia].
    apply (suffixed_run_bounded base). intros k Hk.
    by apply isdir_true, Hbelow.
  - simpl. destruct (Os.isdir fs (suffixed base suffix)) eqn:Hdir.
    + destruct (IH (S suffix)) as (m & Hm & Hle & Hfree & Hall); [|lia|].
      { intros k Hk. destruct (decide (k = suffix)) as [->|]; [done|].
        apply Hbelow. lia. }
      exists m. repeat split; [done|lia|done|done].
    + exists suffix. repeat split; [lia|done|done].
Qed.

Lemma mkdir_Ok (fs fs' : filesystem) (p : string) :
  Os.mkdir fs p = Ok fs' →
  p ≠ "" ∧ Os.path_exists fs p = false
  ∧ fs' = {| dirs := {[ p ]} ∪ dirs fs; files := files fs |}.
Proof.
  unfold Os.mkdir. destruct (decide (p = "")); [done|].
  destruct (Os.path_exists fs p); [done|]. intros [= <-]. done.
Qed.

Lemma mkdir_isdir_self (fs fs' : filesystem) (p : string) :
  Os.mkdir fs p = Ok fs' → Os.isdir fs' p = true.
Proof.
  intros (Hne & _ & ->)%mkdir_Ok. apply isdir_true. simpl. set_solver.
Qed.







(** The allocation returns when the results directory is a directory
    already and the fuel exceeds the number of directories: nothing is
    made, and the suffix is the least one whose name is no directory. *)
Lemma get_experiment_dir_name_returns (fuel : nat) (fs : filesystem)
    (out experiment_name model_name : string) :
  Os.isdir fs out = true →
  size (dirs fs) + 1 < fuel →
  let base := Os.path_join out (run_name experiment_name model_name) in
  ∃ suffix,
    get_experiment_dir_name fuel fs out experiment_name model_name
    = Some (Ok (suffixed base suffix, fs))
    ∧ Os.isdir fs (suffixed base suffix) = false
    ∧ ∀ k, k < suffix → Os.isdir fs (suffixed base k) = true.
Proof.
  intros Hout Hfuel base. unfold get_experiment_dir_name. fold base.
  rewrite Hout.
  destruct (unused_suffix_least fs base fuel 0) as (m & -> & _ & Hfree & Hall);
    [intros; lia|lia|].
  exists m. simpl. repeat split; auto.
Qed.




(** ** Resume or fresh start *)

(** ** Path similarity *)

(** Loops that keep returning, or raise one exception only. *)
Lemma for_each_raises {B S : Type} (body : S → B → result S) (e : exn)
    (l : list B) (x0 : B) :
  (∀ s x, x ∈ l → body s x = Raise e ∨ ∃ s', body s x = Ok s') →
  x0 ∈ l →
  (∀ s, body s x0 = Raise e) →
  ∀ s, Py.for_each body l s = Raise e.
Proof.
  induction l as [|x l IH]; intros Hbody Hin Hx0 s.
  - by apply elem_of_nil in Hin.
  - simpl. apply elem_of_cons in Hin as [<-|Hin].
    + by rewrite Hx0.
    + destruct (Hbody s x) as [->|[s' ->]]; [left|done|]; simpl.
      apply IH; [|done|done]. intros s0 y Hy. apply Hbody. by right.
Qed.

Lemma for_each_raises_or_returns {B S : Type} (body : S → B → result S)
    (e : exn) (l : list B) :
  (∀ s x, x ∈ l → body s x = Raise e ∨ ∃ s', body s x = Ok s') →
  ∀ s, Py.for_each body l s = Raise e ∨ ∃ s', Py.for_each body l s = Ok s'.
Proof.
  induction l as [|x l IH]; intros Hbody s; simpl; [by eauto|].
  destruct (Hbody s x) as [->|[s' ->]]; [left|by left|]; simpl.
  apply IH. intros s0 y Hy. apply Hbody. by right.
Qed.

Section JaccardProperties.
Context {A : Type} `{EqDecision A}.
Implicit Types p q : list A.

Lemma common_prefix_length_le (l1 l2 : list A) :
  common_prefix_length l1 l2 ≤ Nat.min (length l1) (length l2).
Proof.
  revert l2. induction l1 as [|x l1 IH]; intros [|y l2]; simpl; try lia.
  destruct (decide (x = y)); [|lia]. specialize (IH l2). lia.
Qed.

Lemma suffix_run_le p q :
  suffix_run p q ≤ Nat.min (length p) (length q).
Proof.
  unfold suffix_run.
  pose proof (common_prefix_length_le (reverse p) (reverse q)) as Hle.
  by rewrite !length_reverse in Hle.
Qed.

Lemma index_from_end_reverse (l : list A) (i : nat) (x : A) :
  reverse l !! i = Some x → Py.index_from_end l (i + 1) = Ok x.
Proof.
  intros Hx.
  assert (i < length l) as Hi.
  { apply lookup_lt_Some in Hx. by rewrite length_reverse in Hx. }
  unfold Py.index_from_end, Py.index.
  rewrite decide_True by lia.
  rewrite reverse_lookup in Hx by done.
  replace (length l - (i + 1)) with (length l - S i) by lia.
  by rewrite Hx.
Qed.

(** The counting loop never indexes out of range and counts the common
    run of the two reversed paths from position [i] on. *)
Lemma intersection_loop_run p q :
  ∀ todo i intersection,
    i + todo ≤ Nat.min (length p) (length q) →
    intersection_loop p q todo i intersection
    = Ok (intersection
          + Nat.min todo (common_prefix_length (drop i (reverse p))
                                               (drop i (reverse q)))).
Proof.
  induction todo as [|todo IH]; intros i n Hi; simpl.
  - f_equal. lia.
  - destruct (lookup_lt_is_Some_2 (reverse p) i) as [x Hx];
      [rewrite length_reverse; lia|].
    destruct (lookup_lt_is_Some_2 (reverse q) i) as [y Hy];
      [rewrite length_reverse; lia|].
    rewrite (index_from_end_reverse _ _ _ Hx),
            (index_from_end_reverse _ _ _ Hy). simpl.
    rewrite (drop_S _ _ _ Hx), (drop_S _ _ _ Hy). simpl.
    destruct (decide (x = y)) as [->|Hxy].
    + rewrite IH by lia. f_equal. lia.
    + f_equal. lia.
Qed.

Lemma intersection_loop_suffix_run p q :
  intersection_loop p q
    (Nat.min (length p) (length q)) 0 0
  = Ok (suffix_run p q).
Proof.
  rewrite intersection_loop_run by lia. rewrite !drop_0. f_equal.
  pose proof (suffix_run_le p q). unfold suffix_run in *. lia.
Qed.

(** One pair: the division fails on two empty paths and nowhere else;
    otherwise the running maximum is updated with the pair's score. *)
Lemma jaccard_pair_eq (m : Q) p q :
  jaccard_pair m p q
  = if decide (p = [] ∧ q = []) then Raise ZeroDivisionError
    else Ok (if Py.gt (spec_pair_score p q) m
             then spec_pair_score p q else m).
Proof.
  unfold jaccard_pair. rewrite intersection_loop_suffix_run. simpl.
  unfold Py.truediv.
  pose proof (suffix_run_le p q) as Hle.
  destruct (decide (p = [] ∧ q = [])) as [[-> ->]|Hne].
  - done.
  - rewrite decide_False; [done|].
    destruct p, q; simpl in *; try lia. tauto.
Qed.

Lemma spec_pair_score_bounds p q :
  (0 <= spec_pair_score p q <= 1)%Q.
Proof.
  unfold spec_pair_score.
  pose proof (suffix_run_le p q) as Hle.
  set (c := Z.of_nat (suffix_run p q)).
  set (d := (Z.of_nat (length p) + Z.of_nat (length q) - c)%Z).
  assert (0 ≤ c ≤ d)%Z as [Hc Hcd] by lia.
  destruct (decide (d = 0%Z)) as [->|Hd].
  - assert (c = 0%Z) as -> by lia. done.
  - assert (inject_Z 0 < inject_Z d)%Q as Hpos by (rewrite <-Zlt_Qlt; lia).
    rewrite Zle_Qle in Hc. rewrite Zle_Qle in Hcd.
    change (inject_Z 0) with 0%Q in Hpos, Hc.
    split.
    + apply Qle_shift_div_l; [done|]. lra.
    + apply Qle_shift_div_r; [done|]. lra.
Qed.

(** The inner loop over the second collection, for a fixed path of
    the first: a running maximum of the pair scores. *)
Lemma jaccard_inner_loop p (l2 : list (list A)) :
  ∀ m0 : Q,
    (∀ q, q ∈ l2 → ¬ (p = [] ∧ q = [])) →
    ∃ r, Py.for_each (λ m q, jaccard_pair m p q) l2 m0 = Ok r
         ∧ (m0 <= r)%Q
         ∧ (∀ q, q ∈ l2 → (spec_pair_score p q <= r)%Q)
         ∧ (r = m0 ∨ ∃ q, q ∈ l2 ∧ r = spec_pair_score p q).
Proof.
  induction l2 as [|q l2 IH]; intros m0 Hdef; simpl.
  - exists m0. split; [done|]. split; [apply Qle_refl|].
    split; [|by left]. intros q Hq. by apply elem_of_nil in Hq.
  - rewrite jaccard_pair_eq.
    rewrite decide_False by (apply Hdef; by left). simpl.
    assert (∀ q', q' ∈ l2 → ¬ (p = [] ∧ q' = [])) as Hdef'.
    { intros q' Hq'. apply Hdef. by right. }
    destruct (Py.gt (spec_pair_score p q) m0) eqn:Hgt.
    + apply gt_true in Hgt.
      destruct (IH (spec_pair_score p q) Hdef')
        as (r & -> & Hle & Hall & Hwhere).
      exists r. split; [done|].
      split; [apply Qlt_le_weak; by eapply Qlt_le_trans|].
      split.
      * intros q' [->|Hq']%elem_of_cons; [done|by apply Hall].
      * right. destruct Hwhere as [->|(q' & Hq' & ->)].
        -- exists q. split; [by left|done].
        -- exists q'. split; [by right|done].
    + apply gt_false in Hgt.
      destruct (IH m0 Hdef') as (r & -> & Hle & Hall & Hwhere).
      exists r. split; [done|]. split; [done|]. split.
      * intros q' [->|Hq']%elem_of_cons; [by eapply Qle_trans|by apply Hall].
      * destruct Hwhere as [->|(q' & Hq' & ->)]; [by left|].
        right. exists q'. split; [by right|done].
Qed.

(** The outer loop over the first collection. *)
Lemma jaccard_outer_loop (l1 l2 : list (list A)) :
  ∀ m0 : Q,
    (∀ p q, p ∈ l1 → q ∈ l2 → ¬ (p = [] ∧ q = [])) →
    ∃ r, Py.for_each
           (λ m p, Py.for_each (λ m q, jaccard_pair m p q) l2 m) l1 m0
         = Ok r
         ∧ (m0 <= r)%Q
         ∧ (∀ p q, p ∈ l1 → q ∈ l2 → (spec_pair_score p q <= r)%Q)
         ∧ (r = m0 ∨ ∃ p q, p ∈ l1 ∧ q ∈ l2 ∧ r = spec_pair_score p q).
Proof.
  induction l1 as [|p l1 IH]; intros m0 Hdef; simpl.
  - exists m0. split; [done|]. split; [apply Qle_refl|].
    split; [|by left]. intros p q Hp. by apply elem_of_nil in Hp.
  - destruct (jaccard_inner_loop p l2 m0)
      as (r1 & -> & Hle1 & Hall1 & Hwhere1).
    { intros q Hq. apply Hdef; [by left|done]. }
    simpl. destruct (IH r1) as (r & -> & Hle & Hall & Hwhere).
    { intros p' q Hp' Hq. apply Hdef; [by right|done]. }
    exists r. split; [done|]. split; [by eapply Qle_trans|]. split.
    + intros p' q [->|Hp']%elem_of_cons Hq.
      * eapply Qle_trans; [by apply Hall1|done].
      * by apply Hall.
    + destruct Hwhere as [->|(p' & q & Hp' & Hq & ->)].
      * destruct Hwhere1 as [->|(q & Hq & ->)]; [by left|].
        right. exists p, q. split; [by left|done].
      * right. exists p', q. split; [by right|done].
Qed.

(** C5, as the code has it. When no path of the first collection and
    path of the second are both empty (the score of such a pair has a
    zero denominator),
    [jaccard] returns the greatest value, over all pairs, of the length
    of the common run at the ends of the two paths divided by
    [len(path1) + len(path2)] less that length; it returns 0 when
    either collection is empty. *)
Theorem jaccard_max_suffix_score (sorted_list_1 sorted_list_2 : list (list A)) :
  (∀ p q, p ∈ sorted_list_1 → q ∈ sorted_list_2 → p ≠ [] ∨ q ≠ []) →
  ∃ r, jaccard sorted_list_1 sorted_list_2 = Ok r
       ∧ is_max_pair_score sorted_list_1 sorted_list_2 r
       ∧ (sorted_list_1 = [] ∨ sorted_list_2 = [] → r = 0%Q).
Proof.
  intros Hdef.
  destruct (jaccard_outer_loop sorted_list_1 sorted_list_2 0%Q)
    as (r & Hrun & Hle & Hall & Hwhere).
  { intros p q Hp Hq [-> ->]. destruct (Hdef [] [] Hp Hq); done. }
  exists r. split; [exact Hrun|]. split; [split; [exact Hall|]|].
  - destruct Hwhere as [->|(p & q & Hp & Hq & ->)].
    + destruct sorted_list_1 as [|p l1]; [right; by auto|].
      destruct sorted_list_2 as [|q l2]; [right; by auto|].
      left. exists p, q. split; [by left|]. split; [by left|].
      apply Qle_antisym; [apply spec_pair_score_bounds|].
      apply Hall; by left.
    + left. exists p, q. split; [done|]. split; [done|]. apply Qeq_refl.
  - intros Hempty.
    destruct Hwhere as [->|(p & q & Hp & Hq & _)]; [done|].
    destruct Hempty as [->| ->]; by apply elem_of_nil in Hp || apply elem_of_nil in Hq.
Qed.

(** C10. When every path of both collections is non-empty, [jaccard]
    returns a value between 0 and 1. When an empty path occurs in both
    collections, the division for that pair has denominator 0 and
    [jaccard] raises [ZeroDivisionError]. *)
Theorem jaccard_bounded (sorted_list_1 sorted_list_2 : list (list A)) :
  ((∀ p, p ∈ sorted_list_1 → p ≠ []) →
   (∀ q, q ∈ sorted_list_2 → q ≠ []) →
   ∃ r, jaccard sorted_list_1 sorted_list_2 = Ok r ∧ (0 <= r <= 1)%Q)
  ∧ ([] ∈ sorted_list_1 → [] ∈ sorted_list_2 →
     jaccard sorted_list_1 sorted_list_2 = Raise ZeroDivisionError).
Proof.
  split.
  - intros Hne1 Hne2.
    destruct (jaccard_outer_loop sorted_list_1 sorted_list_2 0%Q)
      as (r & Hrun & Hle & _ & Hwhere).
    { intros p q Hp _ [-> _]. by apply (Hne1 []). }
    exists r. split; [exact Hrun|].
    destruct Hwhere as [->|(p & q & _ & _ & ->)]; [done|].
    apply spec_pair_score_bounds.
  - intros Hin1 Hin2. unfold jaccard.
    assert (∀ p (m : Q) q,
              jaccard_pair m p q = Raise ZeroDivisionError
              ∨ ∃ m', jaccard_pair m p q = Ok m') as Hpair.
    { intros p m q. rewrite jaccard_pair_eq.
      destruct (decide (p = [] ∧ q = [])); by eauto. }
    apply (for_each_raises _ _ _ []); [|done|].
    + intros m p _.
      apply for_each_raises_or_returns. intros m' q _. apply Hpair.
    + intros m. apply (for_each_raises _ _ _ []); [|done|done].
      intros m' q _. apply Hpair.
Qed.

End JaccardProperties.

Lemma jaccard_max_suffix_score_witness :
  ∃ r, jaccard [["a"; "b"; "c"]; ["x"]] [["z"; "b"; "c"]] = Ok r
       ∧ is_max_pair_score [["a"; "b"; "c"]; ["x"]] [["z"; "b"; "c"]] r.
Proof.
  destruct (jaccard_max_suffix_score
              [["a"; "b"; "c"]; ["x"]] [["z"; "b"; "c"]])
    as (r & Hrun & Hmax & _).
  - intros p q Hp _. left. intros ->.
    repeat (apply elem_of_cons in Hp as [Hp|Hp]; [discriminate Hp|]).
    by apply elem_of_nil in Hp.
  - exists r. split; assumption.
Defined.

(** Two collections that pair an empty path with an empty path have no
    score: the division raises. *)
Lemma jaccard_two_empty_paths :
  jaccard (A:=string) [[]] [[]] = Raise ZeroDivisionError
  ∧ ¬ ∃ r, jaccard (A:=string) [[]] [[]] = Ok r.
Proof.
  split; [reflexivity|]. intros [r Hr]. discriminate Hr.
Qed.

Lemma jaccard_bounded_witness :
  (∃ r, jaccard [["a"; "b"; "c"]; ["x"]] [["z"; "b"; "c"]] = Ok r
        ∧ (0 <= r <= 1)%Q)
  ∧ jaccard [["a"]; []] [["b"]; []] = Raise ZeroDivisionError.
Proof.
  split.
  - apply (jaccard_bounded [["a"; "b"; "c"]; ["x"]] [["z"; "b"; "c"]]).
    + intros p Hp ->.
      repeat (apply elem_of_cons in Hp as [Hp|Hp]; [discriminate Hp|]).
      by apply elem_of_nil in Hp.
    + intros q Hq ->.
      repeat (apply elem_of_cons in Hq as [Hq|Hq]; [discriminate Hq|]).
      by apply elem_of_nil in Hq.
  - apply (jaccard_bounded [["a"]; []] [["b"]; []]).
    + apply elem_of_cons. right. apply elem_of_cons. by left.
    + apply elem_of_cons. right. apply elem_of_cons. by left.
Defined.

(** ** Integer width *)

(** C6. [int_type] picks the type by the thresholds 128, 32768 and
    2147483648: 8 bits below 128, 16 bits below 32768, 32 bits below
    2147483648, 64 bits from there on. No narrower type has a signed
    range that reaches the count, the chosen one does for counts below
    2^63, and the width does not decrease when the count grows. *)
Theorem int_type_thresholds (n m : Z) :
  ((n < 128)%Z ↔ int_type n = int8)
  ∧ ((128 ≤ n < 32768)%Z ↔ int_type n = int16)
  ∧ ((32768 ≤ n < 2147483648)%Z ↔ int_type n = int32)
  ∧ ((2147483648 ≤ n)%Z ↔ int_type n = int64)
  ∧ (∀ t, (bits t < bits (int_type n))%Z → (2 ^ (bits t - 1) ≤ n)%Z)
  ∧ ((n < 2 ^ 63)%Z → (n < 2 ^ (bits (int_type n) - 1))%Z)
  ∧ ((n ≤ m)%Z → (bits (int_type n) ≤ bits (int_type m))%Z).
Proof.
  unfold int_type.
  destruct (Z.ltb_spec n 128), (Z.ltb_spec n 32768),
           (Z.ltb_spec n 2147483648);
    repeat split; try (intros; (lia || discriminate));
    try (intros []; simpl; lia);
    destruct (Z.ltb_spec m 128), (Z.ltb_spec m 32768),
             (Z.ltb_spec m 2147483648); simpl; lia.
Qed.

Lemma int_type_thresholds_witness :
  (bits (int_type 100) ≤ bits (int_type 40000))%Z
  ∧ (100 < 2 ^ (bits (int_type 100) - 1))%Z.
Proof.
  split.
  - apply (int_type_thresholds 100 40000). lia.
  - apply (int_type_thresholds 100 40000). lia.
Defined.

(** ** Byte sizes *)

(** Zero bytes are rendered as "0B", whatever the floating-point steps
    do. *)
Lemma convert_size_zero (floor_log_1024 : Z → result Z)
    (scaled : Z → Z → result string) :
  convert_size floor_log_1024 scaled 0 = Ok "0B".
Proof. reflexivity. Qed.

(** There are nine unit names: a logarithm of 9 or more has none. *)
Lemma convert_size_no_unit (floor_log_1024 : Z → result Z)
    (scaled : Z → Z → result string) (size_bytes i : Z) (s : string) :
  size_bytes ≠ 0%Z →
  floor_log_1024 size_bytes = Ok i →
  scaled size_bytes i = Ok s →
  (9 ≤ i)%Z →
  convert_size floor_log_1024 scaled size_bytes = Raise IndexError.
Proof.
  intros Hne Hlog Hs Hi. unfold convert_size.
  rewrite decide_False by done. rewrite Hlog. simpl. rewrite Hs. simpl.
  unfold Py.index_int. rewrite decide_True by lia.
  unfold Py.index. rewrite lookup_ge_None_2; [done|]. simpl. lia.
Qed.

(** ** The report of the best epoch *)

(** The name of a run directory, through [str.format]. *)
Lemma format_suffixed (base_dir_name : string) (suffix : nat) :
  Py.format "{base}_{suffix}" []
            [("base", base_dir_name); ("suffix", pretty suffix)]
  = Ok (suffixed base_dir_name suffix).
Proof.
  unfold suffixed.
  transitivity (Ok (A:=string)
                  (base_dir_name +:+ "_" +:+ pretty suffix +:+ ""));
    [reflexivity|].
  by rewrite string_app_nil_r.
Qed.

Example format_positional :
  Py.format "Best validation model {0} on test set {1}: {2}"
            ["accuracy"; "y"; "0.8"] []
  = Ok "Best validation model accuracy on test set y: 0.8".
Proof. vm_compute. reflexivity. Qed.

(** C9, what the code logs. The template of the best-epoch message has
    no replacement field, so the message is the same text for every
    epoch and carries no epoch number, although [epoch + 1] is passed to
    [format]. *)
Theorem best_epoch_message_without_epoch (epoch_max_vali_measure : nat) :
  best_epoch_message epoch_max_vali_measure
  = Ok "Best validation model epoch:".
Proof. reflexivity. Qed.

(** ** Path similarity, further properties *)

Section JaccardFurther.
Context {A : Type} {eq_dec_A : EqDecision A}.
Implicit Types p q : list A.

Lemma jaccard_pair_raises_or_returns (m : Q) p q :
  jaccard_pair m p q = Raise ZeroDivisionError
  ∨ ∃ m', jaccard_pair m p q = Ok m'.
Proof.
  rewrite jaccard_pair_eq. destruct (decide (p = [] ∧ q = [])); by eauto.
Qed.

Lemma jaccard_raises_of_empty (l1 l2 : list (list A)) :
  [] ∈ l1 → [] ∈ l2 → jaccard l1 l2 = Raise ZeroDivisionError.
Proof.
  intros Hin1 Hin2. unfold jaccard.
  apply (for_each_raises _ _ _ []); [|done|].
  - intros m p _. apply for_each_raises_or_returns.
    intros m' q _. apply jaccard_pair_raises_or_returns.
  - intros m. apply (for_each_raises _ _ _ []); [|done|done].
    intros m' q _. apply jaccard_pair_raises_or_returns.
Qed.

(** What a returned score is, and what returning excludes. *)
Lemma jaccard_Ok_inv (l1 l2 : list (list A)) (r : Q) :
  jaccard l1 l2 = Ok r →
  ¬ ([] ∈ l1 ∧ [] ∈ l2)
  ∧ (0 <= r)%Q
  ∧ (∀ p q, p ∈ l1 → q ∈ l2 → (spec_pair_score p q <= r)%Q)
  ∧ (r = 0%Q ∨ ∃ p q, p ∈ l1 ∧ q ∈ l2 ∧ r = spec_pair_score p q).
Proof.
  intros Hrun.
  assert (¬ ([] ∈ l1 ∧ [] ∈ l2)) as Hne.
  { intros [Hin1 Hin2].
    rewrite (jaccard_raises_of_empty l1 l2 Hin1 Hin2) in Hrun. discriminate. }
  split; [done|].
  destruct (jaccard_outer_loop l1 l2 0%Q) as (r' & Hrun' & Hle & Hall & Hwhere).
  { intros p q Hp Hq [-> ->]. by apply Hne. }
  unfold jaccard in Hrun. rewrite Hrun' in Hrun. injection Hrun as <-.
  done.
Qed.

Lemma common_prefix_length_sym (l1 l2 : list A) :
  common_prefix_length l1 l2 = common_prefix_length l2 l1.
Proof.
  revert l2. induction l1 as [|x l1 IH]; intros [|y l2]; simpl; try done.
  destruct (decide (x = y)) as [->|Hne].
  - rewrite decide_True by done. by rewrite IH.
  - rewrite decide_False by done. done.
Qed.

Lemma spec_pair_score_sym p q : spec_pair_score p q = spec_pair_score q p.
Proof.
  unfold spec_pair_score, suffix_run.
  rewrite (common_prefix_length_sym (reverse p) (reverse q)).
  do 2 f_equal. lia.
Qed.

Lemma common_prefix_length_diag (l : list A) :
  common_prefix_length l l = length l.
Proof.
  induction l as [|x l IH]; simpl; [done|].
  rewrite decide_True by done. by rewrite IH.
Qed.

Lemma spec_pair_score_diag p : p ≠ [] → (spec_pair_score p p == 1)%Q.
Proof.
  intros Hne. unfold spec_pair_score, suffix_run.
  rewrite common_prefix_length_diag, length_reverse.
  replace (Z.of_nat (length p) + Z.of_nat (length p) - Z.of_nat (length p))%Z
    with (Z.of_nat (length p)) by lia.
  apply Qmult_inv_r.
  destruct p; [done|]. simpl length. rewrite Nat2Z.inj_succ.
  unfold Qeq. simpl. lia.
Qed.

Lemma common_prefix_length_max_prefix (l1 l2 : list A) :
  common_prefix_length l1 l2 = length (max_prefix l1 l2).2.
Proof.
  revert l2. induction l1 as [|x l1 IH]; intros [|y l2]; simpl; try done.
  unfold decide, decide_rel. destruct (eq_dec_A x y); [|done].
  rewrite IH. by destruct (max_prefix l1 l2) as [[??]?].
Qed.

Lemma suffix_run_zero_iff p q :
  suffix_run p q = 0 ↔ ¬ ∃ x, last p = Some x ∧ last q = Some x.
Proof.
  unfold suffix_run. rewrite <-!head_reverse.
  destruct (reverse p) as [|x l1], (reverse q) as [|y l2]; simpl.
  - split; [intros _ (x & Hx & _); done|done].
  - split; [intros _ (x & Hx & _); done|done].
  - split; [intros _ (y & _ & Hy); done|done].
  - destruct (decide (x = y)) as [->|Hne].
    + split; [done|]. intros Hno. exfalso. apply Hno. by exists y.
    + split; [|done]. intros _ (z & [= <-] & [= <-]). done.
Qed.

Lemma spec_pair_score_zero_iff p q :
  (spec_pair_score p q == 0)%Q ↔ suffix_run p q = 0.
Proof.
  unfold spec_pair_score.
  pose proof (suffix_run_le p q) as Hle.
  set (c := suffix_run p q) in *.
  split.
  - intros Hz. destruct (decide (c = 0)) as [|Hc]; [done|]. exfalso.
    assert (0 < Z.of_nat (length p) + Z.of_nat (length q) - Z.of_nat c)%Z
      as Hd by lia.
    revert Hz. unfold Qeq, Qdiv, Qmult, Qinv. simpl.
    destruct (Z.of_nat (length p) + Z.of_nat (length q) - Z.of_nat c)%Z
      eqn:Hden; simpl; lia.
  - intros ->. simpl. unfold Qeq, Qdiv, Qmult. simpl. lia.
Qed.

(** X1. The count of the loop is the length of the longest list that ends
    both paths. *)
Theorem intersection_loop_longest_common_suffix p q :
  ∃ s p' q',
    p = p' ++ s ∧ q = q' ++ s
    ∧ intersection_loop p q (Nat.min (length p) (length q)) 0 0
      = Ok (length s)
    ∧ ∀ k, k `suffix_of` p → k `suffix_of` q → k `suffix_of` s.
Proof.
  exists (max_suffix p q).2, (max_suffix p q).1.1, (max_suffix p q).1.2.
  split; [apply max_suffix_fst|]. split; [apply max_suffix_snd|].
  split; [|apply max_suffix_max].
  rewrite intersection_loop_suffix_run. f_equal.
  unfold suffix_run, max_suffix.
  rewrite common_prefix_length_max_prefix.
  destruct (max_prefix (reverse p) (reverse q)) as [[k1 k2] k3]. simpl.
  by rewrite length_reverse.
Qed.

(** X2. [jaccard] raises exactly when both collections contain an empty
    path, and then it is the division that fails: the negative indexing
    of the counting loop never leaves a path. *)
Theorem jaccard_raises_exactly (l1 l2 : list (list A)) :
  (jaccard l1 l2 = Raise ZeroDivisionError ↔ [] ∈ l1 ∧ [] ∈ l2)
  ∧ (∀ e, jaccard l1 l2 = Raise e → e = ZeroDivisionError)
  ∧ (¬ ([] ∈ l1 ∧ [] ∈ l2) → ∃ r, jaccard l1 l2 = Ok r).
Proof.
  assert (¬ ([] ∈ l1 ∧ [] ∈ l2) → ∃ r, jaccard l1 l2 = Ok r) as Hreturns.
  { intros Hne.
    destruct (jaccard_outer_loop l1 l2 0%Q) as (r & Hrun & _).
    - intros p q Hp Hq [-> ->]. by apply Hne.
    - by exists r. }
  destruct (decide ([] ∈ l1 ∧ [] ∈ l2)) as [[Hin1 Hin2]|Hne].
  - pose proof (jaccard_raises_of_empty l1 l2 Hin1 Hin2) as Hraise.
    split; [done|]. split; [|tauto].
    intros e He. rewrite Hraise in He. by injection He.
  - destruct (Hreturns Hne) as [r Hr]. rewrite Hr.
    split; [split; [discriminate|tauto]|]. split; [discriminate|by eauto].
Qed.

(** X3. Swapping the two collections does not change the outcome. *)
Theorem jaccard_sym (l1 l2 : list (list A)) :
  same_score (jaccard l1 l2) (jaccard l2 l1).
Proof.
  destruct (decide ([] ∈ l1 ∧ [] ∈ l2)) as [[Hin1 Hin2]|Hne].
  - rewrite (jaccard_raises_of_empty l1 l2), (jaccard_raises_of_empty l2 l1);
      done.
  - destruct (jaccard_outer_loop l1 l2 0%Q) as (r1 & Hrun1 & Hle1 & Hall1 & Hw1).
    { intros p q Hp Hq [-> ->]. by apply Hne. }
    destruct (jaccard_outer_loop l2 l1 0%Q) as (r2 & Hrun2 & Hle2 & Hall2 & Hw2).
    { intros p q Hp Hq [-> ->]. by apply Hne. }
    unfold jaccard. rewrite Hrun1, Hrun2. simpl.
    apply Qle_antisym.
    + destruct Hw1 as [->|(p & q & Hp & Hq & ->)]; [done|].
      rewrite spec_pair_score_sym. by apply Hall2.
    + destruct Hw2 as [->|(p & q & Hp & Hq & ->)]; [done|].
      rewrite spec_pair_score_sym. by apply Hall1.
Qed.

(** X4. A non-empty path that occurs in both collections gives the score 1,
    the greatest there is. *)
Theorem jaccard_common_path (l1 l2 : list (list A)) p :
  p ∈ l1 → p ∈ l2 → p ≠ [] →
  ¬ ([] ∈ l1 ∧ [] ∈ l2) →
  ∃ r, jaccard l1 l2 = Ok r ∧ (r == 1)%Q.
Proof.
  intros Hp1 Hp2 Hne Hdef.
  destruct (jaccard_outer_loop l1 l2 0%Q) as (r & Hrun & Hle & Hall & Hw).
  { intros p' q Hp' Hq [-> ->]. by apply Hdef. }
  exists r. split; [exact Hrun|].
  apply Qle_antisym.
  - destruct Hw as [->|(p' & q & _ & _ & ->)]; [done|].
    apply spec_pair_score_bounds.
  - rewrite <-(spec_pair_score_diag p Hne). by apply Hall.
Qed.

(** X5. The score is 0 exactly when no path of the first collection ends
    with the same element as a path of the second. *)
Theorem jaccard_zero_iff (l1 l2 : list (list A)) (r : Q) :
  jaccard l1 l2 = Ok r →
  (r == 0)%Q ↔
  ∀ p q, p ∈ l1 → q ∈ l2 → ¬ ∃ x, last p = Some x ∧ last q = Some x.
Proof.
  intros (_ & Hpos & Hall & Hw)%jaccard_Ok_inv. split.
  - intros Hz p q Hp Hq. apply suffix_run_zero_iff, spec_pair_score_zero_iff.
    apply Qle_antisym; [|apply spec_pair_score_bounds].
    rewrite <-Hz. by apply Hall.
  - intros Hlast. destruct Hw as [->|(p & q & Hp & Hq & ->)]; [done|].
    by apply spec_pair_score_zero_iff, suffix_run_zero_iff, Hlast.
Qed.

(** X6. Only which paths occur matters, and more paths cannot lower the
    score: order and repetition in the collections are irrelevant. *)
Theorem jaccard_monotone (l1 l2 l1' l2' : list (list A)) (r r' : Q) :
  (∀ p, p ∈ l1 → p ∈ l1') →
  (∀ q, q ∈ l2 → q ∈ l2') →
  jaccard l1 l2 = Ok r →
  jaccard l1' l2' = Ok r' →
  (r <= r')%Q.
Proof.
  intros Hsub1 Hsub2 (_ & _ & _ & Hw)%jaccard_Ok_inv
         (_ & Hpos' & Hall' & _)%jaccard_Ok_inv.
  destruct Hw as [->|(p & q & Hp & Hq & ->)]; [done|].
  apply Hall'; auto.
Qed.

End JaccardFurther.

Lemma jaccard_raises_exactly_witness :
  jaccard [["a"]; []] [["b"]; []] = Raise ZeroDivisionError
  ∧ ∃ r, jaccard [["a"]; []] [["b"]] = Ok r.
Proof.
  split.
  - apply (jaccard_raises_exactly [["a"]; []] [["b"]; []]).
    split; apply elem_of_cons; right; apply elem_of_cons; by left.
  - apply (jaccard_raises_exactly [["a"]; []] [["b"]]).
    intros [_ Hin].
    apply elem_of_cons in Hin as [Hin|Hin]; [discriminate Hin|].
    by apply elem_of_nil in Hin.
Defined.

Lemma jaccard_common_path_witness :
  ∃ r, jaccard [["a"; "b"]; ["c"]] [["d"]; ["a"; "b"]] = Ok r ∧ (r == 1)%Q.
Proof.
  apply (jaccard_common_path [["a"; "b"]; ["c"]] [["d"]; ["a"; "b"]]
           ["a"; "b"]).
  - apply elem_of_cons. by left.
  - apply elem_of_cons. right. apply elem_of_cons. by left.
  - discriminate.
  - intros [Hin _].
    repeat (apply elem_of_cons in Hin as [Hin|Hin]; [discriminate Hin|]).
    by apply elem_of_nil in Hin.
Defined.

Lemma jaccard_zero_iff_witness :
  ((0 # 1) == 0)%Q ↔
  ∀ p q : list string, p ∈ [["a"; "b"]] → q ∈ [["b"; "a"]] →
    ¬ ∃ x, last p = Some x ∧ last q = Some x.
Proof.
  apply (jaccard_zero_iff [["a"; "b"]] [["b"; "a"]] (0 # 1)).
  reflexivity.
Defined.

Lemma jaccard_monotone_witness : ((1 # 3) <= (2 # 2))%Q.
Proof.
  apply (jaccard_monotone [["a"; "b"]] [["c"; "b"]]
           [["x"]; ["a"; "b"]] [["c"; "b"]; ["a"; "b"]] (1 # 3) (2 # 2)).
  - intros p Hp. apply elem_of_cons. by right.
  - intros q Hq. apply elem_of_cons in Hq as [->|Hq].
    + apply elem_of_cons. by left.
    + by apply elem_of_nil in Hq.
  - reflexivity.
  - reflexivity.
Defined.

(** ** Best-epoch selection, further properties *)

(** With the field and the measure present on both sides and a non-empty
    validation series, everything is decided by the entry of the test
    series at the epoch that [max] selects. *)
Lemma select_best_epoch_present
    (train_valisest_stats train_testset_stats : statistics)
    (validation_field validation_measure : string)
    (vfr tfr : gmap string (list pyfloat))
    (series test_series : list pyfloat) :
  train_valisest_stats !! validation_field = Some vfr →
  vfr !! validation_measure = Some series →
  series ≠ [] →
  train_testset_stats !! validation_field = Some tfr →
  tfr !! validation_measure = Some test_series →
  ∃ i v,
    Py.max_by snd (Py.enumerate series) = Ok (i, v)
    ∧ series !! i = Some v
    ∧ select_best_epoch train_valisest_stats train_testset_stats
                        validation_field validation_measure
      = match test_series !! i with
        | Some t => Ok (BestEpoch i v t)
        | None => Raise IndexError
        end.
Proof.
  intros Hvf Hvm Hne Htf Htm.
  destruct (max_by_enumerate_lookup series Hne) as (i & v & Hmax & Hi).
  exists i, v. split; [done|]. split; [done|].
  unfold select_best_epoch, Py.getitem.
  rewrite Hvf. simpl. rewrite Hvm. simpl. rewrite Hmax. simpl.
  rewrite Htf. simpl. rewrite Htm. simpl.
  unfold Py.index. by destruct (test_series !! i).
Qed.

(** X7. With the field and the measure present on both sides and a
    non-empty validation series, the selection raises [IndexError]
    exactly when the test series has no entry at the epoch that
    [max(enumerate(series))] selects. That epoch is a position of the
    validation series, and the first position of its greatest value when
    no value of the series is not-a-number. *)
Theorem select_best_epoch_short_test_series
    (train_valisest_stats train_testset_stats : statistics)
    (validation_field validation_measure : string)
    (vfr tfr : gmap string (list pyfloat))
    (series test_series : list pyfloat) :
  train_valisest_stats !! validation_field = Some vfr →
  vfr !! validation_measure = Some series →
  series ≠ [] →
  train_testset_stats !! validation_field = Some tfr →
  tfr !! validation_measure = Some test_series →
  ∃ i v,
    Py.max_by snd (Py.enumerate series) = Ok (i, v)
    ∧ series !! i = Some v
    ∧ (Forall (λ w, w ≠ NaN) series →
       (∀ j w, series !! j = Some w → float_le w v)
       ∧ (∀ j w, j < i → series !! j = Some w → float_lt w v))
    ∧ (length test_series ≤ i ↔
       select_best_epoch train_valisest_stats train_testset_stats
                         validation_field validation_measure
       = Raise IndexError).
Proof.
  intros Hvf Hvm Hne Htf Htm.
  destruct (select_best_epoch_present _ _ _ _ _ _ _ _ Hvf Hvm Hne Htf Htm)
    as (i & v & Hmax & Hi & ->).
  exists i, v. split; [done|]. split; [done|]. split; [|split].
  - intros Hnan.
    destruct (max_by_enumerate series Hne Hnan)
      as (i' & v' & Hmax' & _ & Hall & Hfirst).
    rewrite Hmax in Hmax'. by injection Hmax' as <- <-.
  - intros Hlen. by rewrite lookup_ge_None_2.
  - intros Hraise. destruct (test_series !! i) eqn:Ht; [done|].
    by apply lookup_ge_None.
Qed.

Lemma select_best_epoch_short_test_series_witness :
  (select_best_epoch (example_stats example_validation)
                     (example_stats [Finite (4#10)]) "y" "accuracy"
   = Raise IndexError)
  ∧ (select_best_epoch (example_stats example_diverged)
                       (example_stats [Finite (4#10)]) "y" "accuracy"
     ≠ Raise IndexError).
Proof.
  split.
  - destruct (select_best_epoch_short_test_series
                (example_stats example_validation)
                (example_stats [Finite (4#10)]) "y" "accuracy"
                {[ "accuracy" := example_validation ]}
                {[ "accuracy" := [Finite (4#10)] ]}
                example_validation [Finite (4#10)])
      as (i & v & Hmax & _ & _ & Hiff);
      [reflexivity|reflexivity|discriminate|reflexivity|reflexivity|].
    apply Hiff. vm_compute in Hmax. injection Hmax as <- _. simpl. lia.
  - destruct (select_best_epoch_short_test_series
                (example_stats example_diverged)
                (example_stats [Finite (4#10)]) "y" "accuracy"
                {[ "accuracy" := example_diverged ]}
                {[ "accuracy" := [Finite (4#10)] ]}
                example_diverged [Finite (4#10)])
      as (i & v & Hmax & _ & _ & Hiff);
      [reflexivity|reflexivity|discriminate|reflexivity|reflexivity|].
    intros Hraise. apply Hiff in Hraise.
    vm_compute in Hmax. injection Hmax as <- _. simpl in Hraise. lia.
Defined.

Lemma max_scan_app {A : Type} (key : A → pyfloat) (l1 l2 : list A) :
  ∀ cur,
    Py.max_scan key cur (l1 ++ l2)
    = Py.max_scan key (Py.max_scan key cur l1) l2.
Proof.
  induction l1 as [|x l1 IH]; intros cur; simpl; [done|].
  by destruct (Py.float_gt (key x) (key cur)).
Qed.

Lemma max_scan_not_greater {A : Type} (key : A → pyfloat) (l : list A)
    (cur : A) :
  Forall (λ x, Py.float_gt (key x) (key cur) = false) l →
  Py.max_scan key cur l = cur.
Proof.
  induction l as [|x l IH]; intros Hall; simpl; [done|].
  apply Forall_cons in Hall as [-> Hall]. by apply IH.
Qed.

Lemma enumerate_from_app {A : Type} (l1 l2 : list A) :
  ∀ start,
    Py.enumerate_from start (l1 ++ l2)
    = Py.enumerate_from start l1
      ++ Py.enumerate_from (start + length l1) l2.
Proof.
  induction l1 as [|x l1 IH]; intros start; simpl.
  - by rewrite Nat.add_0_r.
  - rewrite IH. do 3 f_equal. lia.
Qed.

Lemma enumerate_from_Forall {A : Type} (P : A → Prop) (l : list A) :
  ∀ start,
    Forall P l → Forall (λ x, P (snd x)) (Py.enumerate_from start l).
Proof.
  induction l as [|x l IH]; intros start Hall; simpl; [by constructor|].
  apply Forall_cons in Hall as [Hx Hall]. constructor; [done|by apply IH].
Qed.

(** X8. Further epochs whose validation value does not compare greater
    than the best one leave the selection as it is: a later tie does not
    displace the earlier epoch, and neither does a later
    not-a-number. *)
Theorem select_best_epoch_later_epochs
    (train_valisest_stats train_testset_stats : statistics)
    (validation_field validation_measure : string)
    (vfr tfr : gmap string (list pyfloat))
    (series test_series later later_test : list pyfloat)
    (best : best_epoch) :
  train_valisest_stats !! validation_field = Some vfr →
  vfr !! validation_measure = Some series →
  train_testset_stats !! validation_field = Some tfr →
  tfr !! validation_measure = Some test_series →
  select_best_epoch train_valisest_stats train_testset_stats
                    validation_field validation_measure = Ok best →
  Forall (λ w, Py.float_gt w (max_vali_measure best) = false) later →
  select_best_epoch
    (<[validation_field := <[validation_measure := series ++ later]> vfr]>
       train_valisest_stats)
    (<[validation_field := <[validation_measure := test_series ++ later_test]> tfr]>
       train_testset_stats)
    validation_field validation_measure
  = Ok best.
Proof.
  intros Hvf Hvm Htf Htm Hrun Hlater.
  assert (series ≠ []) as Hne.
  { intros ->. unfold select_best_epoch, Py.getitem in Hrun.
    rewrite Hvf in Hrun. simpl in Hrun. rewrite Hvm in Hrun. done. }
  destruct (select_best_epoch_present _ _ _ _ _ _ _ _ Hvf Hvm Hne Htf Htm)
    as (i & v & Hmax & Hi & Heq).
  rewrite Heq in Hrun. destruct (test_series !! i) as [t|] eqn:Ht; [|done].
  injection Hrun as <-. simpl in Hlater.
  assert (Py.max_by snd (Py.enumerate (series ++ later)) = Ok (i, v)) as Hmax'.
  { destruct series as [|x rest]; [done|].
    unfold Py.enumerate in *. simpl in *.
    rewrite enumerate_from_app, max_scan_app.
    injection Hmax as ->.
    rewrite max_scan_not_greater; [done|].
    by apply (enumerate_from_Forall (λ w, Py.float_gt w v = false)). }
  unfold select_best_epoch, Py.getitem.
  rewrite !lookup_insert_eq. simpl. rewrite !lookup_insert_eq. simpl.
  rewrite Hmax'. simpl.
  unfold Py.index. by rewrite (lookup_app_l_Some _ _ _ _ Ht).
Qed.

Lemma select_best_epoch_later_epochs_witness :
  select_best_epoch
    (<["y" := <["accuracy" := example_validation
                              ++ [Finite (9#10); NaN; Finite (8#10)]]>
                {[ "accuracy" := example_validation ]}]>
       (example_stats example_validation))
    (<["y" := <["accuracy" := example_test
                              ++ [Finite (7#10); NaN; Finite (7#10)]]>
                {[ "accuracy" := example_test ]}]>
       (example_stats example_test))
    "y" "accuracy"
  = Ok (BestEpoch 1 (Finite (9#10)) (Finite (8#10))).
Proof.
  apply (select_best_epoch_later_epochs
           (example_stats example_validation)
           (example_stats example_test) "y" "accuracy"
           {[ "accuracy" := example_validation ]}
           {[ "accuracy" := example_test ]}).
  - reflexivity.
  - reflexivity.
  - reflexivity.
  - reflexivity.
  - vm_compute. reflexivity.
  - repeat (apply Forall_cons; split; [reflexivity|]). apply Forall_nil_2.
Defined.

(** ** Run directories, further properties *)

Lemma path_exists_true (fs : filesystem) (p : string) :
  Os.path_exists fs p = true ↔ p ≠ "" ∧ (p ∈ dirs fs ∨ p ∈ files fs).
Proof. unfold Os.path_exists. apply bool_decide_eq_true. Qed.

Lemma isdir_path_exists (fs : filesystem) (p : string) :
  Os.isdir fs p = true → Os.path_exists fs p = true.
Proof. rewrite isdir_true, path_exists_true. tauto. Qed.

Lemma unused_suffix_Some (fs : filesystem) (base : string) :
  ∀ fuel suffix m,
    unused_suffix fs base fuel suffix = Some m →
    Os.isdir fs (suffixed base m) = false.
Proof.
  induction fuel as [|fuel IH]; intros suffix m; simpl; [done|].
  destruct (Os.isdir fs (suffixed base suffix)) eqn:Hdir.
  - apply IH.
  - by intros [= <-].
Qed.

(** What a successful allocation has done. *)
Lemma get_experiment_dir_name_Ok_inv (fuel : nat) (fs fs1 : filesystem)
    (out experiment_name model_name name : string) :
  get_experiment_dir_name fuel fs out experiment_name model_name
  = Some (Ok (name, fs1)) →
  out ≠ ""
  ∧ Os.isdir fs1 out = true
  ∧ ((Os.isdir fs out = true ∧ fs1 = fs)
     ∨ (Os.isdir fs out = false ∧ Os.path_exists fs out = false
        ∧ fs1 = {| dirs := {[ out ]} ∪ dirs fs; files := files fs |}))
  ∧ ∃ suffix,
      unused_suffix fs1 (Os.path_join out (run_name experiment_name model_name))
                    fuel 0 = Some suffix
      ∧ name = suffixed (Os.path_join out
                           (run_name experiment_name model_name)) suffix.
Proof.
  unfold get_experiment_dir_name.
  destruct (Os.isdir fs out) eqn:Hdir.
  - destruct (unused_suffix fs _ fuel 0) as [suffix|] eqn:Hs; [|done].
    simpl. intros [= <- <-].
    split; [by apply isdir_true in Hdir as [? _]|].
    split; [done|]. split; [by left|]. by exists suffix.
  - destruct (Os.mkdir fs out) as [fs'|e] eqn:Hmk; [|done].
    destruct (unused_suffix fs' _ fuel 0) as [suffix|] eqn:Hs; [|done].
    simpl. intros [= <- <-].
    pose proof (mkdir_isdir_self _ _ _ Hmk) as Hself.
    apply mkdir_Ok in Hmk as (Hne & Hex & ->).
    split; [done|]. split; [done|]. split; [by right|]. by exists suffix.
Qed.

(** X9. [get_experiment_dir_name] raises [FileNotFoundError] for the empty
    output directory and [FileExistsError] when the output directory
    exists without being a directory. With the fuel above the number of
    directories it returns whenever the output directory is a directory
    already; and whenever it returns, the output directory was a
    directory or a non-empty path at which nothing existed. *)
Theorem get_experiment_dir_name_outcomes (fuel : nat) (fs : filesystem)
    (output_directory experiment_name model_name : string) :
  let run := get_experiment_dir_name fuel fs
               output_directory experiment_name model_name in
  (output_directory = "" → run = Some (Raise FileNotFoundError))
  ∧ (Os.isdir fs output_directory = false →
     Os.path_exists fs output_directory = true →
     run = Some (Raise FileExistsError))
  ∧ (size (dirs fs) + 1 < fuel →
     Os.isdir fs output_directory = true →
     ∃ name fs1, run = Some (Ok (name, fs1)))
  ∧ ((∃ name fs1, run = Some (Ok (name, fs1))) →
     usable_results_dir fs output_directory).
Proof.
  intros run. subst run. split; [|split; [|split]].
  - intros ->. reflexivity.
  - intros Hdir Hex. unfold get_experiment_dir_name, Os.mkdir.
    rewrite Hdir, Hex.
    apply path_exists_true in Hex as [Hne _].
    by rewrite decide_False.
  - intros Hfuel Hisdir.
    destruct (get_experiment_dir_name_returns fuel fs output_directory
                experiment_name model_name Hisdir Hfuel)
      as (suffix & Hrun & _).
    by eauto.
  - intros (name & fs1 & Hrun).
    apply get_experiment_dir_name_Ok_inv
      in Hrun as (Hne & _ & [[Hdir _]|(_ & Hex & _)] & _).
    + by left.
    + by right.
Qed.

Lemma get_experiment_dir_name_outcomes_witness :
  get_experiment_dir_name 10 example_fs "" "experiment" "run"
  = Some (Raise FileNotFoundError)
  ∧ get_experiment_dir_name 10 {| dirs := ∅; files := {[ "results" ]} |}
      "results" "experiment" "run"
    = Some (Raise FileExistsError)
  ∧ ∃ name fs1,
      get_experiment_dir_name 10 example_fs "results" "experiment" "run"
      = Some (Ok (name, fs1)).
Proof.
  split; [|split].
  - by apply (get_experiment_dir_name_outcomes 10 example_fs
                "" "experiment" "run").
  - apply (get_experiment_dir_name_outcomes 10
             {| dirs := ∅; files := {[ "results" ]} |}
             "results" "experiment" "run"); reflexivity.
  - apply (get_experiment_dir_name_outcomes 10 example_fs
             "results" "experiment" "run").
    + vm_compute. lia.
    + reflexivity.
Defined.

Lemma get_experiment_dir_name_frame (fuel : nat) (fs fs1 : filesystem)
    (out experiment_name model_name name : string) :
  get_experiment_dir_name fuel fs out experiment_name model_name
  = Some (Ok (name, fs1)) →
  files fs1 = files fs
  ∧ dirs fs1 = (if Os.isdir fs out then dirs fs else {[ out ]} ∪ dirs fs)
  ∧ Os.isdir fs1 out = true
  ∧ Os.isdir fs1 name = false.
Proof.
  intros Hrun.
  apply get_experiment_dir_name_Ok_inv
    in Hrun as (Hne & Hdir1 & Hfs & suffix & Hs & ->).
  apply unused_suffix_Some in Hs.
  destruct Hfs as [[Hdir ->]|(Hdir & _ & ->)]; rewrite Hdir; done.
Qed.

(** X10. A successful allocation changes the file system by at most the
    results directory: it makes no other directory, in particular not
    the one it names, and touches no file. *)
Theorem get_experiment_dir_name_effect (fuel : nat) (fs fs1 : filesystem)
    (output_directory experiment_name model_name name : string) :
  get_experiment_dir_name fuel fs output_directory experiment_name model_name
  = Some (Ok (name, fs1)) →
  files fs1 = files fs
  ∧ dirs fs1 = (if Os.isdir fs output_directory then dirs fs
                else {[ output_directory ]} ∪ dirs fs)
  ∧ Os.isdir fs1 output_directory = true
  ∧ Os.isdir fs1 name = false.
Proof. apply get_experiment_dir_name_frame. Qed.

Lemma get_experiment_dir_name_effect_witness :
  files example_fs = files example_fs
  ∧ dirs example_fs = (if Os.isdir example_fs "results" then dirs example_fs
                       else {[ "results" ]} ∪ dirs example_fs)
  ∧ Os.isdir example_fs "results" = true
  ∧ Os.isdir example_fs "results/experiment_run_2" = false.
Proof.
  apply (get_experiment_dir_name_effect 10 example_fs example_fs
           "results" "experiment" "run" "results/experiment_run_2").
  vm_compute. reflexivity.
Defined.

(** X11. The name returned is not reserved: a second allocation, made before
    the directory is created, returns the same name. *)
Theorem get_experiment_dir_name_not_reserved (fuel : nat)
    (fs fs1 : filesystem)
    (output_directory experiment_name model_name name : string) :
  get_experiment_dir_name fuel fs output_directory experiment_name model_name
  = Some (Ok (name, fs1)) →
  get_experiment_dir_name fuel fs1 output_directory experiment_name model_name
  = Some (Ok (name, fs1)).
Proof.
  intros Hrun.
  apply get_experiment_dir_name_Ok_inv
    in Hrun as (Hne & Hdir1 & _ & suffix & Hs & ->).
  unfold get_experiment_dir_name. rewrite Hdir1, Hs. done.
Qed.

Lemma get_experiment_dir_name_not_reserved_witness :
  get_experiment_dir_name 10 example_fs "results" "experiment" "run"
  = Some (Ok ("results/experiment_run_2", example_fs)).
Proof.
  apply (get_experiment_dir_name_not_reserved 10 example_fs example_fs
           "results" "experiment" "run" "results/experiment_run_2").
  vm_compute. reflexivity.
Defined.

Lemma run_name_startswith_sep_eq (experiment_name model_name : string) :
  Py.startswith_sep (run_name experiment_name model_name)
  = Py.startswith_sep experiment_name.
Proof.
  destruct experiment_name as [|c e]; [by destruct model_name|]. reflexivity.
Qed.

(** X12. The three shapes of a returned name: an experiment name that starts
    with the separator replaces the output directory; an output
    directory that ends with the separator gets no second one; otherwise
    one separator is put between the two. The suffix always comes last. *)
Theorem get_experiment_dir_name_shape (fuel : nat) (fs fs1 : filesystem)
    (output_directory experiment_name model_name name : string) :
  get_experiment_dir_name fuel fs output_directory experiment_name model_name
  = Some (Ok (name, fs1)) →
  ∃ suffix : nat,
    name = (if Py.startswith_sep experiment_name
            then run_name experiment_name model_name
            else if Py.endswith_sep output_directory
            then output_directory +:+ run_name experiment_name model_name
            else output_directory +:+ "/"
                   +:+ run_name experiment_name model_name)
           +:+ "_" +:+ pretty suffix.
Proof.
  intros Hrun.
  apply get_experiment_dir_name_Ok_inv
    in Hrun as (Hne & _ & _ & suffix & _ & ->).
  exists suffix. unfold suffixed, Os.path_join.
  rewrite run_name_startswith_sep_eq.
  destruct (Py.startswith_sep experiment_name); [done|].
  destruct output_directory; [done|]. simpl Py.truthy. simpl negb.
  rewrite orb_false_l.
  destruct (Py.endswith_sep _); by rewrite ?string_app_assoc.
Qed.

Lemma get_experiment_dir_name_shape_witness :
  ∃ suffix : nat, "results/experiment_run_2"
            = "results/" +:+ run_name "experiment" "run"
                +:+ "_" +:+ pretty suffix.
Proof.
  apply (get_experiment_dir_name_shape 10
           {| dirs := {[ "results/"; "results/experiment_run_0";
                         "results/experiment_run_1" ]}; files := ∅ |}
           {| dirs := {[ "results/"; "results/experiment_run_0";
                         "results/experiment_run_1" ]}; files := ∅ |}
           "results/" "experiment" "run" "results/experiment_run_2").
  vm_compute. reflexivity.
Defined.

Lemma get_file_names_Ok_inv (fs fs' : filesystem) (name : string)
    (fns : file_names) :
  get_file_names fs name = Ok (fns, fs') →
  fns = FileNames (Os.path_join name "description.json")
                  (Os.path_join name "training_statistics.json")
                  (Os.path_join name "model")
  ∧ name ≠ ""
  ∧ Os.path_exists fs' name = true
  ∧ ((Os.path_exists fs name = true ∧ fs' = fs)
     ∨ (Os.path_exists fs name = false
        ∧ fs' = {| dirs := {[ name ]} ∪ dirs fs; files := files fs |})).
Proof.
  unfold get_file_names.
  destruct (Os.path_exists fs name) eqn:Hex; simpl.
  - intros [= <- <-]. split; [done|].
    split; [by apply path_exists_true in Hex as [? _]|].
    split; [done|]. by left.
  - destruct (Os.mkdir fs name) as [fs1|e] eqn:Hmk; simpl; [|done].
    intros [= <- <-].
    pose proof (mkdir_isdir_self _ _ _ Hmk) as Hself.
    apply mkdir_Ok in Hmk as (Hne & _ & ->).
    split; [done|]. split; [done|].
    split; [by apply isdir_path_exists|]. by right.
Qed.

(** X13. [get_file_names] raises [FileNotFoundError] for the empty name
    and returns, changing nothing, when something exists at the name
    (also a regular file). Whenever it returns, the name is not empty,
    the path exists afterwards, a path that was missing has been made a
    directory, and calling it again returns the same names and changes
    nothing. *)
Theorem get_file_names_outcomes (fs : filesystem) (name : string) :
  (name = "" → get_file_names fs name = Raise FileNotFoundError)
  ∧ (Os.path_exists fs name = true →
     ∃ fns, get_file_names fs name = Ok (fns, fs))
  ∧ (∀ fns fs',
       get_file_names fs name = Ok (fns, fs') →
       name ≠ ""
       ∧ Os.path_exists fs' name = true
       ∧ (Os.path_exists fs name = true → fs' = fs)
       ∧ (Os.path_exists fs name = false → Os.isdir fs' name = true)
       ∧ get_file_names fs' name = Ok (fns, fs')).
Proof.
  split; [by intros ->|]. split.
  - intros Hex. unfold get_file_names. rewrite Hex. simpl. by eexists.
  - intros fns fs' Hrun.
    pose proof Hrun as (-> & Hne & Hex' & Hfs)%get_file_names_Ok_inv.
    split; [done|]. split; [done|]. split; [|split].
    + intros Hex. destruct Hfs as [[_ ->]|[Hno _]]; [done|congruence].
    + intros Hex. destruct Hfs as [[Hyes _]|[_ ->]]; [congruence|].
      apply isdir_true. simpl. split; [done|].
      apply elem_of_union_l. by apply elem_of_singleton.
    + unfold get_file_names. by rewrite Hex'.
Qed.

Lemma get_file_names_outcomes_witness :
  get_file_names example_fs "" = Raise FileNotFoundError
  ∧ (∃ fns, get_file_names example_fs "results/experiment_run_1"
            = Ok (fns, example_fs))
  ∧ Os.isdir (fs_after example_run) "results/experiment_run_2" = true.
Proof.
  split; [|split].
  - by apply (get_file_names_outcomes example_fs "").
  - apply (get_file_names_outcomes example_fs "results/experiment_run_1").
    reflexivity.
  - destruct (get_file_names_outcomes example_fs "results/experiment_run_2")
      as (_ & _ & Hreturned).
    destruct (Hreturned (names example_run) (fs_after example_run))
      as (_ & _ & _ & Hmade & _).
    + vm_compute. reflexivity.
    + apply Hmade. reflexivity.
Defined.

(** ** Resume or fresh start, further properties *)

(** What a successful set-up has done. *)
Lemma full_train_setup_Ok_inv (fuel : nat) (fs : filesystem)
    (model_resume_path : option string)
    (out experiment_name model_name : string) (r : run_setup) :
  full_train_setup fuel fs model_resume_path out experiment_name model_name
  = Some (Ok r) →
  (∃ p, model_resume_path = Some p ∧ Os.path_exists fs p = true
        ∧ experiment_dir_name r = p ∧ train_resume r = true
        ∧ logged r = []
        ∧ get_file_names fs p = Ok (names r, fs_after r))
  ∨ ((model_resume_path = None
      ∨ ∃ p, model_resume_path = Some p ∧ Os.path_exists fs p = false)
     ∧ train_resume r = false
     ∧ ∃ fs1,
         get_experiment_dir_name fuel fs out experiment_name model_name
         = Some (Ok (experiment_dir_name r, fs1))
         ∧ get_file_names fs1 (experiment_dir_name r)
           = Ok (names r, fs_after r)).
Proof.
  unfold full_train_setup.
  destruct model_resume_path as [p|].
  - destruct (Os.path_exists fs p) eqn:Hex.
    + simpl. destruct (get_file_names fs p) as [[fns fs2]|e] eqn:Hfn;
        simpl; [|done].
      intros [= <-]. left. exists p. simpl. done.
    + destruct (get_experiment_dir_name fuel fs out experiment_name model_name)
        as [[[name fs1]|e]|] eqn:Hrun; simpl; [|done|done].
      destruct (get_file_names fs1 name) as [[fns fs2]|e] eqn:Hfn;
        simpl; [|done].
      intros [= <-]. right. simpl. split; [right; by eauto|].
      split; [done|]. by eauto.
  - destruct (get_experiment_dir_name fuel fs out experiment_name model_name)
      as [[[name fs1]|e]|] eqn:Hrun; simpl; [|done|done].
    destruct (get_file_names fs1 name) as [[fns fs2]|e] eqn:Hfn;
      simpl; [|done].
    intros [= <-]. right. simpl. split; [by left|].
    split; [done|]. by eauto.
Qed.

Lemma full_train_setup_save_path (fuel : nat) (fs : filesystem)
    (model_resume_path : option string)
    (out experiment_name model_name : string) (r : run_setup) :
  full_train_setup fuel fs model_resume_path out experiment_name model_name
  = Some (Ok r) →
  train_save_path r = model_dir (names r).
Proof.
  unfold full_train_setup.
  destruct (match model_resume_path with
            | Some p => if Os.path_exists fs p then (Some p, [])
                        else (None, [resume_missing_message])
            | None => (None, [])
            end) as [mrp log].
  destruct (match mrp with
            | None => get_experiment_dir_name fuel fs out
                        experiment_name model_name
            | Some p => Some (Ok (p, fs))
            end) as [[[name fs1]|e]|]; simpl; [|done|done].
  destruct (get_file_names fs1 name) as [[fns fs2]|e]; simpl; [|done].
  by intros [= <-].
Qed.

Lemma full_train_setup_frame (fuel : nat) (fs : filesystem)
    (model_resume_path : option string)
    (out experiment_name model_name : string) (r : run_setup) :
  full_train_setup fuel fs model_resume_path out experiment_name model_name
  = Some (Ok r) →
  Os.path_exists (fs_after r) (experiment_dir_name r) = true
  ∧ files (fs_after r) = files fs
  ∧ dirs fs ⊆ dirs (fs_after r)
  ∧ dirs (fs_after r) ⊆ dirs fs ∪ {[ out; experiment_dir_name r ]}
  ∧ (train_resume r = false → Os.isdir fs (experiment_dir_name r) = false)
  ∧ (train_resume r = false →
     Os.path_exists fs (experiment_dir_name r) = false →
     Os.isdir (fs_after r) (experiment_dir_name r) = true).
Proof.
  intros Hrun.
  destruct (full_train_setup_Ok_inv _ _ _ _ _ _ _ Hrun)
    as [(p & _ & Hex & Hdir & Hres & _ & Hfn)
       |(_ & Hres & fs1 & Halloc & Hfn)].
  - apply get_file_names_Ok_inv in Hfn as (_ & _ & Hex' & Hfs).
    rewrite Hdir, Hres.
    destruct Hfs as [[_ ->]|[Hno _]]; [|congruence].
    repeat split; try done. apply union_subseteq_l.
  - pose proof (get_experiment_dir_name_frame _ _ _ _ _ _ _ Halloc)
      as (Hfiles & Hdirs & Hout & Hfree).
    apply get_file_names_Ok_inv in Hfn as (_ & Hne & Hex' & Hfs).
    set (dir := experiment_dir_name r) in *.
    assert (dirs fs ⊆ dirs fs1 ∧ dirs fs1 ⊆ dirs fs ∪ {[ out; dir ]})
      as [Hsub1 Hsub2].
    { rewrite Hdirs. destruct (Os.isdir fs out).
      - split; [done|apply union_subseteq_l].
      - split; [apply union_subseteq_r|].
        intros x [Hx|Hx]%elem_of_union; rewrite !elem_of_union; auto. }
    assert (Os.isdir fs dir = false) as Hnodir.
    { destruct (Os.isdir fs dir) eqn:Hd; [|done].
      apply isdir_true in Hd as [? Hd].
      assert (Os.isdir fs1 dir = true); [|congruence].
      apply isdir_true. split; [done|]. by apply Hsub1. }
    split; [done|].
    destruct Hfs as [[Hex1 ->]|[Hex1 ->]]; simpl.
    + split; [done|]. split; [done|]. split; [done|].
      split; [done|]. intros _ Hex.
      apply path_exists_true in Hex1 as [_ [Hd|Hf]].
      * by apply isdir_true.
      * exfalso. rewrite Hfiles in Hf.
        assert (Os.path_exists fs dir = true); [|congruence].
        apply path_exists_true. split; [done|]. by right.
    + split; [done|].
      split; [etrans; [exact Hsub1|apply union_subseteq_r]|].
      split.
      { intros x [Hx|Hx]%elem_of_union.
        - apply elem_of_singleton in Hx as ->.
          rewrite !elem_of_union, !elem_of_singleton. auto.
        - by apply Hsub2. }
      split; [done|]. intros _ _. apply isdir_true. simpl.
      split; [done|]. apply elem_of_union_l. by apply elem_of_singleton.
Qed.

(** C4, as the code has it. With a resume path at which nothing exists,
    the set-up does what it does without a resume path, apart from
    logging the message: same run directory, file names and file system,
    and the same error if the fresh start raises one. Whenever it
    returns, the run directory is a newly allocated suffixed name that
    was no directory before, and the call of [train] gets
    [resume=False]. With a resume path that exists, the set-up returns,
    the run directory is that path, [resume=True] is passed, and nothing
    is created or logged. *)
Theorem full_train_setup_resume_path (fuel : nat) (fs : filesystem)
    (path output_directory experiment_name model_name : string) :
  let resumed := full_train_setup fuel fs (Some path)
                   output_directory experiment_name model_name in
  let fresh := full_train_setup fuel fs None
                 output_directory experiment_name model_name in
  (Os.path_exists fs path = false →
     resumed = match fresh with
               | Some (Ok r) => Some (Ok (with_logged [resume_missing_message] r))
               | other => other
               end
     ∧ ∀ r, resumed = Some (Ok r) →
         train_resume r = false
         ∧ logged r = [resume_missing_message]
         ∧ Os.isdir fs (experiment_dir_name r) = false
         ∧ ∃ suffix,
             experiment_dir_name r
             = suffixed (Os.path_join output_directory
                           (run_name experiment_name model_name)) suffix)
  ∧ (Os.path_exists fs path = true →
     ∃ r, resumed = Some (Ok r)
          ∧ experiment_dir_name r = path
          ∧ train_resume r = true
          ∧ logged r = []
          ∧ fs_after r = fs).
Proof.
  intros resumed fresh. split.
  - intros Hex.
    assert (resumed = match fresh with
                      | Some (Ok r) =>
                          Some (Ok (with_logged [resume_missing_message] r))
                      | other => other
                      end) as Heq.
    { subst resumed fresh. unfold full_train_setup. rewrite Hex.
      destruct (get_experiment_dir_name fuel fs output_directory
                  experiment_name model_name) as [[[name fs1]|e]|]; simpl;
        [|done|done].
      destruct (get_file_names fs1 name) as [[fns fs2]|e]; simpl; done. }
    split; [exact Heq|]. intros r Hrun.
    pose proof (full_train_setup_frame _ _ _ _ _ _ _ Hrun)
      as (_ & _ & _ & _ & Hnew & _).
    destruct (full_train_setup_Ok_inv _ _ _ _ _ _ _ Hrun)
      as [(p & [= <-] & Hex' & _)|(_ & Hres & fs1 & Halloc & _)];
      [congruence|].
    split; [done|]. split.
    { rewrite Heq in Hrun.
      destruct fresh as [[r0|e]|]; [|done|done]. by injection Hrun as <-. }
    split; [by apply Hnew|].
    apply get_experiment_dir_name_Ok_inv
      in Halloc as (_ & _ & _ & suffix & _ & Hname).
    by exists suffix.
  - intros Hex. subst resumed. unfold full_train_setup. rewrite Hex. simpl.
    unfold get_file_names. rewrite Hex. simpl.
    eexists. split; [reflexivity|]. simpl. done.
Qed.

Lemma full_train_setup_resume_path_witness :
  (train_resume (with_logged [resume_missing_message] example_run) = false
   ∧ logged (with_logged [resume_missing_message] example_run)
     = [resume_missing_message]
   ∧ Os.isdir example_fs
       (experiment_dir_name
          (with_logged [resume_missing_message] example_run)) = false)
  ∧ (∃ r, full_train_setup 10 example_fs (Some "results/experiment_run_1")
            "results" "experiment" "run" = Some (Ok r)
          ∧ experiment_dir_name r = "results/experiment_run_1"
          ∧ train_resume r = true).
Proof.
  split.
  - destruct (full_train_setup_resume_path 10 example_fs
                "results/experiment_run_7" "results" "experiment" "run")
      as [Hmissing _].
    destruct (Hmissing eq_refl) as [_ Hreturned].
    destruct (Hreturned (with_logged [resume_missing_message] example_run))
      as (Hresume & Hlog & Hnew & _).
    + vm_compute. reflexivity.
    + split; [exact Hresume|]. split; [exact Hlog|exact Hnew].
  - destruct (full_train_setup_resume_path 10 example_fs
                "results/experiment_run_1" "results" "experiment" "run")
      as [_ Hexists].
    destruct (Hexists eq_refl) as (r & Hrun & Hdir & Hresume & _).
    exists r. split; [exact Hrun|]. split; [exact Hdir|exact Hresume].
Defined.

(** A run with a resume path at which nothing exists raises when the
    fresh start does: here a regular file stands where the results
    directory should be, and [os.mkdir] refuses it. *)
Lemma full_train_setup_missing_resume_raises :
  Os.path_exists example_fs_file "results/experiment_run_0" = false
  ∧ full_train_setup 10 example_fs_file (Some "results/experiment_run_0")
      "results" "experiment" "run"
    = Some (Raise FileExistsError).
Proof. split; vm_compute; reflexivity. Qed.

(** X14. A set-up that returns leaves everything that existed in place, makes
    at most the results directory and the run directory, leaves the run
    directory's path existing, and passes its model subdirectory as
    [save_path]. A run that does not resume never takes a directory that
    was there before. *)
Theorem full_train_setup_postcondition (fuel : nat) (fs : filesystem)
    (model_resume_path : option string)
    (output_directory experiment_name model_name : string) (r : run_setup) :
  full_train_setup fuel fs model_resume_path
                   output_directory experiment_name model_name
  = Some (Ok r) →
  Os.path_exists (fs_after r) (experiment_dir_name r) = true
  ∧ files (fs_after r) = files fs
  ∧ dirs fs ⊆ dirs (fs_after r)
  ∧ dirs (fs_after r)
    ⊆ dirs fs ∪ {[ output_directory; experiment_dir_name r ]}
  ∧ train_save_path r = Os.path_join (experiment_dir_name r) "model"
  ∧ (train_resume r = false → Os.isdir fs (experiment_dir_name r) = false).
Proof.
  intros Hrun.
  pose proof (full_train_setup_frame _ _ _ _ _ _ _ Hrun)
    as (Hex & Hfiles & Hsub1 & Hsub2 & Hnew & _).
  pose proof (full_train_setup_save_path _ _ _ _ _ _ _ Hrun) as Hsave.
  repeat split; try done.
  rewrite Hsave.
  destruct (full_train_setup_Ok_inv _ _ _ _ _ _ _ Hrun)
    as [(p & _ & _ & <- & _ & _ & Hfn)|(_ & _ & fs1 & _ & Hfn)];
    by apply get_file_names_Ok_inv in Hfn as (-> & _).
Qed.

Lemma full_train_setup_postcondition_witness :
  train_save_path example_run
  = Os.path_join (experiment_dir_name example_run) "model"
  ∧ Os.isdir example_fs (experiment_dir_name example_run) = false.
Proof.
  destruct (full_train_setup_postcondition 10 example_fs None
              "results" "experiment" "run" example_run)
    as (_ & _ & _ & _ & Hsave & Hnew).
  - vm_compute. reflexivity.
  - split; [exact Hsave|]. apply Hnew. reflexivity.
Defined.

(** X15. Two fresh runs in a row get different run directories, and the first
    one is still there after the second, provided nothing stood at the
    first name (so that the first run made its directory). *)
Theorem full_train_setup_twice (fuel fuel2 : nat) (fs : filesystem)
    (output_directory experiment_name model_name : string)
    (r1 r2 : run_setup) :
  full_train_setup fuel fs None output_directory experiment_name model_name
  = Some (Ok r1) →
  Os.path_exists fs (experiment_dir_name r1) = false →
  full_train_setup fuel2 (fs_after r1) None
                   output_directory experiment_name model_name
  = Some (Ok r2) →
  experiment_dir_name r2 ≠ experiment_dir_name r1
  ∧ Os.isdir (fs_after r2) (experiment_dir_name r1) = true.
Proof.
  intros Hrun1 Hfree Hrun2.
  assert (train_resume r1 = false ∧ train_resume r2 = false) as [Hres1 Hres2].
  { split.
    - by destruct (full_train_setup_Ok_inv _ _ _ _ _ _ _ Hrun1)
        as [(p & ? & _)|(_ & ? & _)].
    - by destruct (full_train_setup_Ok_inv _ _ _ _ _ _ _ Hrun2)
        as [(p & ? & _)|(_ & ? & _)]. }
  pose proof (full_train_setup_frame _ _ _ _ _ _ _ Hrun1)
    as (_ & _ & _ & _ & _ & Hmade).
  specialize (Hmade Hres1 Hfree).
  pose proof (full_train_setup_frame _ _ _ _ _ _ _ Hrun2)
    as (_ & _ & Hsub & _ & Hnew & _).
  specialize (Hnew Hres2).
  split; [congruence|].
  apply isdir_true in Hmade as [Hne Hin].
  apply isdir_true. split; [done|]. by apply Hsub.
Qed.

Lemma full_train_setup_twice_witness :
  experiment_dir_name example_run_again ≠ experiment_dir_name example_run
  ∧ Os.isdir (fs_after example_run_again) (experiment_dir_name example_run)
    = true.
Proof.
  apply (full_train_setup_twice 10 10 example_fs
           "results" "experiment" "run" example_run example_run_again).
  - vm_compute. reflexivity.
  - vm_compute. reflexivity.
  - vm_compute. reflexivity.
Defined.

(** X16. The run directory of any set-up that returned can be resumed from:
    resuming takes that directory, yields the same file names, passes
    [resume=True], creates nothing, and ignores the output directory and
    the experiment and model names. *)
Theorem full_train_setup_then_resume (fuel fuel2 : nat) (fs : filesystem)
    (model_resume_path : option string)
    (output_directory experiment_name model_name : string)
    (output_directory2 experiment_name2 model_name2 : string)
    (r : run_setup) :
  full_train_setup fuel fs model_resume_path
                   output_directory experiment_name model_name
  = Some (Ok r) →
  full_train_setup fuel2 (fs_after r) (Some (experiment_dir_name r))
                   output_directory2 experiment_name2 model_name2
  = Some (Ok (RunSetup (experiment_dir_name r) (names r) (train_save_path r)
                       true [] (fs_after r))).
Proof.
  intros Hrun.
  pose proof (full_train_setup_frame _ _ _ _ _ _ _ Hrun) as (Hex & _).
  pose proof (full_train_setup_save_path _ _ _ _ _ _ _ Hrun) as Hsave.
  assert (names r
          = FileNames (Os.path_join (experiment_dir_name r) "description.json")
              (Os.path_join (experiment_dir_name r) "training_statistics.json")
              (Os.path_join (experiment_dir_name r) "model")) as Hnames.
  { destruct (full_train_setup_Ok_inv _ _ _ _ _ _ _ Hrun)
      as [(p & _ & _ & <- & _ & _ & Hfn)|(_ & _ & fs1 & _ & Hfn)];
      by apply get_file_names_Ok_inv in Hfn as (-> & _). }
  unfold full_train_setup. rewrite Hex. simpl.
  unfold get_file_names. rewrite Hex. simpl.
  rewrite Hsave, Hnames. done.
Qed.

Lemma full_train_setup_then_resume_witness :
  full_train_setup 0 (fs_after example_run)
    (Some (experiment_dir_name example_run)) "" "/other" ""
  = Some (Ok (RunSetup (experiment_dir_name example_run) (names example_run)
                       (train_save_path example_run) true []
                       (fs_after example_run))).
Proof.
  apply (full_train_setup_then_resume 10 0 example_fs None
           "results" "experiment" "run").
  vm_compute. reflexivity.
Defined.

(** ** Integer width, further properties *)

(** X17. The count lies in the signed range of the chosen type exactly when
    it is between -128 and 2^63 - 1, and no type that holds the count is
    narrower than the chosen one. *)
Theorem int_type_in_range (n : Z) :
  (in_signed_range (int_type n) n ↔ (-128 ≤ n < 2 ^ 63)%Z)
  ∧ (∀ t, in_signed_range t n → (bits (int_type n) ≤ bits t)%Z).
Proof.
  unfold in_signed_range, int_type.
  destruct (Z.ltb_spec n 128), (Z.ltb_spec n 32768),
           (Z.ltb_spec n 2147483648);
    (split; [simpl; lia|intros []; simpl; lia]).
Qed.

(** ** Byte sizes, further properties *)

Lemma format_two (s u : string) :
  Py.format "{} {}" [s; u] [] = Ok (s +:+ " " +:+ u).
Proof.
  transitivity (Ok (A:=string) (s +:+ " " +:+ u +:+ "")); [reflexivity|].
  by rewrite string_app_nil_r.
Qed.

(** X18. For a size other than zero the result is the scaled number, a
    space and the unit name at the index the logarithm gives; there are
    nine unit names, so an index of 9 or more raises [IndexError]. *)
Theorem convert_size_units (floor_log_1024 : Z → result Z)
    (scaled : Z → Z → result string) (size_bytes i : Z) (s : string) :
  size_bytes ≠ 0%Z →
  floor_log_1024 size_bytes = Ok i →
  scaled size_bytes i = Ok s →
  (∀ unit_name, (0 ≤ i)%Z → size_name !! Z.to_nat i = Some unit_name →
     convert_size floor_log_1024 scaled size_bytes
     = Ok (s +:+ " " +:+ unit_name))
  ∧ ((0 ≤ i < 9)%Z → is_Some (size_name !! Z.to_nat i))
  ∧ ((9 ≤ i)%Z →
     convert_size floor_log_1024 scaled size_bytes = Raise IndexError).
Proof.
  intros Hne Hlog Hs. split; [|split].
  - intros unit_name Hi Hunit. unfold convert_size.
    rewrite decide_False by done. rewrite Hlog. simpl. rewrite Hs. simpl.
    unfold Py.index_int. rewrite decide_True by done.
    unfold Py.index. rewrite Hunit. simpl. apply format_two.
  - intros Hi. apply lookup_lt_is_Some. simpl. lia.
  - intros Hi. by eapply convert_size_no_unit.
Qed.

Lemma convert_size_units_witness :
  convert_size (λ b, Ok (Z.log2 b / 10)%Z) (λ _ _, Ok "1.0") (2 ^ 20)
  = Ok "1.0 MB"
  ∧ convert_size (λ b, Ok (Z.log2 b / 10)%Z) (λ _ _, Ok "32.0") (2 ^ 95)
    = Raise IndexError.
Proof.
  split.
  - apply (convert_size_units (λ b, Ok (Z.log2 b / 10)%Z)
             (λ _ _, Ok "1.0") (2 ^ 20) 2 "1.0");
      [discriminate|reflexivity|reflexivity|lia|reflexivity].
  - apply (convert_size_units (λ b, Ok (Z.log2 b / 10)%Z)
             (λ _ _, Ok "32.0") (2 ^ 95) 9 "32.0");
      [discriminate|reflexivity|reflexivity|lia].
Defined.

(** ** Preprocessing from metadata *)

Section MetadataUpdateProperties.
Context {V : Type} `{Countable V}.
Implicit Types (metadata : gmap V (gmap string V))
               (feature : gmap string V).

(** One feature: it is returned unchanged without the key, updated when
    the metadata resolves, and [KeyError] is raised otherwise. *)
Lemma update_feature_preprocessing_eq metadata feature :
  (feature !! "preprocessing" = None
   ∧ update_feature_preprocessing metadata feature = Ok feature)
  ∨ (is_Some (feature !! "preprocessing")
     ∧ ∃ name entry preprocessing,
         feature !! "name" = Some name
         ∧ metadata !! name = Some entry
         ∧ entry !! "preprocessing" = Some preprocessing
         ∧ update_feature_preprocessing metadata feature
           = Ok (<["preprocessing" := preprocessing]> feature))
  ∨ (is_Some (feature !! "preprocessing")
     ∧ ¬ preprocessing_resolvable metadata feature
     ∧ update_feature_preprocessing metadata feature = Raise KeyError).
Proof.
  unfold update_feature_preprocessing, preprocessing_resolvable.
  destruct (decide (is_Some (feature !! "preprocessing"))) as [Hsome|Hnone].
  - right. unfold Py.getitem, getitem_value.
    destruct (feature !! "name") as [name|] eqn:Hname; simpl.
    + destruct (metadata !! name) as [entry|] eqn:Hentry; simpl.
      * destruct (entry !! "preprocessing") as [pre|] eqn:Hpre; simpl.
        -- left. split; [done|]. by exists name, entry, pre.
        -- right. split; [done|]. split; [|done].
           intros [Hno|(n & e & p & ? & ? & ?)]; [|congruence].
           rewrite Hno in Hsome. by destruct Hsome.
      * right. split; [done|]. split; [|done].
        intros [Hno|(n & e & p & ? & ? & ?)]; [|congruence].
        rewrite Hno in Hsome. by destruct Hsome.
    + right. split; [done|]. split; [|done].
      intros [Hno|(n & e & p & ? & ? & ?)]; [|congruence].
      rewrite Hno in Hsome. by destruct Hsome.
  - left. split; [|done]. by apply eq_None_not_Some.
Qed.

Lemma update_feature_preprocessing_Ok_inv metadata feature feature' :
  update_feature_preprocessing metadata feature = Ok feature' →
  preprocessing_resolvable metadata feature
  ∧ (∀ key, key ≠ "preprocessing" → feature' !! key = feature !! key)
  ∧ (feature !! "preprocessing" = None → feature' = feature)
  ∧ (is_Some (feature !! "preprocessing") →
     ∃ name entry preprocessing,
       feature !! "name" = Some name
       ∧ metadata !! name = Some entry
       ∧ entry !! "preprocessing" = Some preprocessing
       ∧ feature' !! "preprocessing" = Some preprocessing)
  ∧ update_feature_preprocessing metadata feature' = Ok feature'.
Proof.
  intros Hrun.
  destruct (update_feature_preprocessing_eq metadata feature)
    as [[Hno Heq]|[(Hsome & name & entry & pre & Hname & Hentry & Hpre & Heq)
                  |(_ & _ & Heq)]];
    rewrite Heq in Hrun; [|injection Hrun as <-|done].
  - injection Hrun as <-. split; [by left|]. split; [done|].
    split; [done|]. split; [|done].
    intros Hsome. rewrite Hno in Hsome. by destruct Hsome.
  - split; [right; by exists name, entry, pre|].
    split; [intros key Hkey; by rewrite lookup_insert_ne|].
    split; [intros Hno; rewrite Hno in Hsome; by destruct Hsome|].
    split.
    + intros _. exists name, entry, pre. by rewrite lookup_insert_eq.
    + unfold update_feature_preprocessing.
      rewrite decide_True by (rewrite lookup_insert_eq; by eexists).
      unfold Py.getitem, getitem_value.
      rewrite lookup_insert_ne by done. rewrite Hname. simpl.
      rewrite Hentry. simpl. rewrite Hpre. simpl.
      by rewrite insert_insert_eq.
Qed.

(** X19. The loop returns exactly when every feature that has the key
    ['preprocessing'] has a name under which the metadata holds a
    preprocessing entry; otherwise it raises [KeyError], and nothing
    else. *)
Theorem update_features_preprocessing_outcomes metadata
    (features : list (gmap string V)) :
  ((∃ features',
      update_features_preprocessing metadata features = Ok features')
   ↔ Forall (preprocessing_resolvable metadata) features)
  ∧ (∀ e, update_features_preprocessing metadata features = Raise e →
          e = KeyError).
Proof.
  induction features as [|feature features [IHiff IHerr]]; simpl.
  - split; [|done]. split; [by constructor|by eauto].
  - destruct (update_feature_preprocessing_eq metadata feature)
      as [[Hno Heq]|[(Hsome & name & entry & pre & Hname & Hentry & Hpre & Heq)
                    |(Hsome & Hnot & Heq)]]; rewrite Heq; simpl.
    + destruct (update_features_preprocessing metadata features)
        as [rest|e] eqn:Hrest; simpl.
      * split; [|done]. split; [|by eauto]. intros _.
        constructor; [by left|]. apply IHiff. by eauto.
      * split; [|intros e' [= <-]; by apply IHerr].
        split; [by intros [? ?]|].
        intros Hall. apply Forall_cons in Hall as [_ Hall].
        apply IHiff in Hall as [? ?]. done.
    + destruct (update_features_preprocessing metadata features)
        as [rest|e] eqn:Hrest; simpl.
      * split; [|done]. split; [|by eauto]. intros _.
        constructor; [right; by exists name, entry, pre|].
        apply IHiff. by eauto.
      * split; [|intros e' [= <-]; by apply IHerr].
        split; [by intros [? ?]|].
        intros Hall. apply Forall_cons in Hall as [_ Hall].
        apply IHiff in Hall as [? ?]. done.
    + split; [|by intros e [= <-]].
      split; [by intros [? ?]|].
      intros Hall. apply Forall_cons in Hall as [Hres _]. done.
Qed.

(** X20. After the loop there are as many features, in the same order; a
    feature without the key ['preprocessing'] is unchanged, one with it
    has the preprocessing entry of the metadata under that key, and no
    other key of any feature is touched. *)
Theorem update_features_preprocessing_result metadata
    (features features' : list (gmap string V)) :
  update_features_preprocessing metadata features = Ok features' →
  length features' = length features
  ∧ ∀ k feature, features !! k = Some feature →
      ∃ feature',
        features' !! k = Some feature'
        ∧ (∀ key, key ≠ "preprocessing" → feature' !! key = feature !! key)
        ∧ (feature !! "preprocessing" = None → feature' = feature)
        ∧ (is_Some (feature !! "preprocessing") →
           ∃ name entry preprocessing,
             feature !! "name" = Some name
             ∧ metadata !! name = Some entry
             ∧ entry !! "preprocessing" = Some preprocessing
             ∧ feature' !! "preprocessing" = Some preprocessing).
Proof.
  revert features'.
  induction features as [|feature features IH]; intros features'; simpl.
  - intros [= <-]. split; [done|]. intros k f Hk. by rewrite lookup_nil in Hk.
  - destruct (update_feature_preprocessing metadata feature)
      as [feature'|e] eqn:Hfeature; simpl; [|done].
    destruct (update_features_preprocessing metadata features)
      as [rest|e] eqn:Hrest; simpl; [|done].
    intros [= <-]. destruct (IH rest eq_refl) as [Hlen Hall].
    split; [simpl; by rewrite Hlen|].
    intros [|k] f Hk; simpl in Hk.
    + injection Hk as <-. exists feature'. split; [done|].
      by apply update_feature_preprocessing_Ok_inv
        in Hfeature as (_ & ? & ? & ? & _).
    + by apply Hall.
Qed.

(** X21. Running the loop again on its result changes nothing. *)
Theorem update_features_preprocessing_idempotent metadata
    (features features' : list (gmap string V)) :
  update_features_preprocessing metadata features = Ok features' →
  update_features_preprocessing metadata features' = Ok features'.
Proof.
  revert features'.
  induction features as [|feature features IH]; intros features'; simpl.
  - by intros [= <-].
  - destruct (update_feature_preprocessing metadata feature)
      as [feature'|e] eqn:Hfeature; simpl; [|done].
    destruct (update_features_preprocessing metadata features)
      as [rest|e] eqn:Hrest; simpl; [|done].
    intros [= <-]. simpl.
    apply update_feature_preprocessing_Ok_inv
      in Hfeature as (_ & _ & _ & _ & ->).
    simpl. by rewrite (IH rest eq_refl).
Qed.

Lemma update_features_preprocessing_app metadata
    (l1 l2 : list (gmap string V)) :
  update_features_preprocessing metadata (l1 ++ l2)
  = l1' ← update_features_preprocessing metadata l1;
    l2' ← update_features_preprocessing metadata l2;
    Ok (l1' ++ l2').
Proof.
  induction l1 as [|feature l1 IH]; simpl.
  - by destruct (update_features_preprocessing metadata l2).
  - destruct (update_feature_preprocessing metadata feature); simpl; [|done].
    rewrite IH.
    destruct (update_features_preprocessing metadata l1); simpl; [|done].
    by destruct (update_features_preprocessing metadata l2).
Qed.

Lemma update_features_preprocessing_length metadata
    (features features' : list (gmap string V)) :
  update_features_preprocessing metadata features = Ok features' →
  length features' = length features.
Proof.
  revert features'.
  induction features as [|feature features IH]; intros features'; simpl.
  - by intros [= <-].
  - destruct (update_feature_preprocessing metadata feature); simpl; [|done].
    destruct (update_features_preprocessing metadata features)
      as [rest|e]; simpl; [|done].
    intros [= <-]. simpl. by rewrite (IH rest eq_refl).
Qed.

(** X22. The loop over [input_features + output_features] treats the two
    lists one after the other: the input features come out as the loop
    over them alone gives them, then the output features likewise, and
    the first [KeyError] of either list is raised. *)
Theorem update_preprocessing_with_metadata_split metadata
    (input_features output_features : list (gmap string V)) :
  update_preprocessing_with_metadata metadata input_features output_features
  = input_features' ← update_features_preprocessing metadata input_features;
    output_features' ← update_features_preprocessing metadata output_features;
    Ok (input_features', output_features').
Proof.
  unfold update_preprocessing_with_metadata.
  rewrite update_features_preprocessing_app.
  destruct (update_features_preprocessing metadata input_features)
    as [ins|e] eqn:Hins; simpl; [|done].
  destruct (update_features_preprocessing metadata output_features)
    as [outs|e]; simpl; [|done].
  apply update_features_preprocessing_length in Hins.
  rewrite <-Hins. by rewrite take_app_length, drop_app_length.
Qed.

End MetadataUpdateProperties.

Lemma update_features_preprocessing_outcomes_witness :
  (∃ features',
     update_features_preprocessing example_metadata
       [example_feature; example_plain_feature] = Ok features')
  ∧ ∀ e, update_features_preprocessing example_metadata
           [example_plain_feature; example_unknown_feature] = Raise e →
         e = KeyError.
Proof.
  split.
  - apply (update_features_preprocessing_outcomes example_metadata
             [example_feature; example_plain_feature]).
    apply Forall_cons. split.
    + right. exists "utterance",
        {[ "preprocessing" := "lowercase"; "vocab_size" := "100" ]},
        "lowercase".
      repeat split; reflexivity.
    + apply Forall_cons. split; [left; reflexivity|apply Forall_nil_2].
  - apply (update_features_preprocessing_outcomes example_metadata
             [example_plain_feature; example_unknown_feature]).
Defined.

Lemma update_features_preprocessing_result_witness :
  length [<["preprocessing" := "lowercase"]> example_feature;
          example_plain_feature]
  = length [example_feature; example_plain_feature].
Proof.
  apply (update_features_preprocessing_result example_metadata
           [example_feature; example_plain_feature]
           [<["preprocessing" := "lowercase"]> example_feature;
            example_plain_feature]).
  vm_compute. reflexivity.
Defined.

Lemma update_features_preprocessing_idempotent_witness :
  update_features_preprocessing example_metadata
    [<["preprocessing" := "lowercase"]> example_feature; example_plain_feature]
  = Ok [<["preprocessing" := "lowercase"]> example_feature;
        example_plain_feature].
Proof.
  apply (update_features_preprocessing_idempotent example_metadata
           [example_feature; example_plain_feature]).
  vm_compute. reflexivity.
Defined.
